(** * MYGA-Scraper: table extraction, pagination, de-duplication and sinks

    A shallow embedding of the pure logic of
    [paginated_selenium_scraper.py], [mssql_utils.py] and
    [scraping/db_utils.py].

    Modelling conventions.
    - A Python [str] is a [string] read as a sequence of code points
      below 256; [is_pyspace] is [str.isspace] on that range and the
      regular-expression class [\d] is ['0'..'9'] there.
    - A Python [dict] with string keys is a [gmap string _]: none of
      the modelled functions observes insertion order (they look keys
      up, take the key set, or sort the items).
    - The browser, the HTML parser and the database driver are outside
      the model: a page is given by the rows and cells the parser
      returns, a crawl by the outcome of each page request. *)

From Stdlib Require Import ZArith Ascii String List Lia.
From stdpp Require Import base option list gmap sets strings sorting pretty.

Open Scope Z_scope.

(** ** Python string helpers *)

Module Py.

(** [str.isspace] for one code point below 256. *)
Definition is_pyspace (c : ascii) : bool :=
  let n := N_of_ascii c in
  ((9 <=? n) && (n <=? 13) || (28 <=? n) && (n <=? 32)
   || (n =? 133) || (n =? 160))%N.

(** [s.lstrip()] *)
Fixpoint lstrip (s : string) : string :=
  match s with
  | EmptyString => EmptyString
  | String c s' => if is_pyspace c then lstrip s' else s
  end.

(** [s.rstrip()]: a character is dropped when it is white space and
    nothing is kept after it. *)
Fixpoint rstrip (s : string) : string :=
  match s with
  | EmptyString => EmptyString
  | String c s' =>
      match rstrip s' with
      | EmptyString => if is_pyspace c then EmptyString else String c EmptyString
      | t => String c t
      end
  end.

(** [s.strip()] *)
Definition strip (s : string) : string := rstrip (lstrip s).

(** [s.startswith(p)] *)
Fixpoint startswith (s p : string) {struct p} : bool :=
  match p with
  | EmptyString => true
  | String b p' =>
      match s with
      | EmptyString => false
      | String a s' => Ascii.eqb a b && startswith s' p'
      end
  end.

(** [s.endswith(p)] *)
Definition endswith (s p : string) : bool :=
  startswith (String.rev s) (String.rev p).

(** Truth value of a [str]: only the empty string is falsy. *)
Definition truthy (s : string) : bool :=
  match s with EmptyString => false | _ => true end.

(** [sep.join(parts)] *)
Fixpoint join (sep : string) (parts : list string) : string :=
  match parts with
  | [] => ""
  | [p] => p
  | p :: rest => p +:+ sep +:+ join sep rest
  end.

(** [s.replace(old, new)] for a non-empty [old]: occurrences are
    replaced left to right without overlap.  [skip] counts the
    characters of a matched occurrence still to be dropped. *)
Fixpoint replace_go (old new : string) (skip : nat) (s : string) : string :=
  match s with
  | EmptyString => EmptyString
  | String c s' =>
      match skip with
      | S k => replace_go old new k s'
      | O =>
          if startswith s old
          then new +:+ replace_go old new (Nat.pred (String.length old)) s'
          else String c (replace_go old new O s')
      end
  end.

Definition replace (old new s : string) : string := replace_go old new O s.

(** A string of white space only. *)
Fixpoint all_space (s : string) : bool :=
  match s with
  | EmptyString => true
  | String c s' => is_pyspace c && all_space s'
  end.

(** [\d] on code points below 256. *)
Definition is_digit (c : ascii) : bool :=
  let n := N_of_ascii c in ((48 <=? n) && (n <=? 57))%N.

Fixpoint all_digits (s : string) : bool :=
  match s with
  | EmptyString => true
  | String c s' => is_digit c && all_digits s'
  end.

(** [sorted(...)] on strings: ascending code-point order. *)
Definition sorted (l : list string) : list string :=
  merge_sort String.le l.

End Py.

(** ** Records *)

(** One anchor of a cell: [{'text': ..., 'href': ...}]; [href] is
    [None] when the attribute is missing. *)
Record link := Link { link_text : string; link_href : option string }.

(** The values a scraped record holds: cell text, the integer metadata
    ([page_number], [row_index]) and the link lists stored under
    [<header>_links]. *)
Inductive value :=
  | VStr (s : string)
  | VInt (n : Z)
  | VLinks (l : list link).

Global Instance link_eq_dec : EqDecision link.
Proof. solve_decision. Defined.

Global Instance link_countable : Countable link.
Proof.
  apply (inj_countable' (λ l, (link_text l, link_href l))
                        (λ p, Link p.1 p.2)).
  by intros [].
Defined.

Global Instance value_eq_dec : EqDecision value.
Proof. solve_decision. Defined.

Global Instance value_countable : Countable value.
Proof.
  apply (inj_countable'
    (λ v, match v with
          | VStr s => inl s
          | VInt n => inr (inl n)
          | VLinks l => inr (inr l)
          end)
    (λ x, match x with
          | inl s => VStr s
          | inr (inl n) => VInt n
          | inr (inr l) => VLinks l
          end)).
  by intros [].
Defined.

(** A record is a Python dict from column name to value. *)
Abbreviation record := (gmap string value).

(** ** De-duplication ([remove_duplicates]) *)

Module Dedup.

(** [value.strip() if isinstance(value, str) else value] *)
Definition normalize (v : value) : value :=
  match v with
  | VStr s => VStr (Py.strip s)
  | _ => v
  end.

(** The dict [product_signature] built for one row: every item whose
    key does not end in [_links], string values stripped.  The source
    hashes [str(sorted(product_signature.items()))]; that rendering is
    a canonical, injective image of the dict, so the model keeps the
    dict itself as the hashable signature. *)
Definition product_signature (row : record) : record :=
  normalize <$>
    filter (λ kv : string * value, Py.endswith kv.1 "_links" = false) row.

(** The loop of [remove_duplicates]: [seen_products], [unique_data]
    and [duplicates_removed] are the loop's three variables. *)
Fixpoint remove_duplicates_loop (seen_products : gset record)
    (unique_data : list record) (duplicates_removed : nat)
    (data : list record) : list record * nat :=
  match data with
  | [] => (unique_data, duplicates_removed)
  | row :: rest =>
      let signature_str := product_signature row in
      if decide (signature_str ∉ seen_products)
      then remove_duplicates_loop ({[signature_str]} ∪ seen_products)
             (unique_data ++ [row]) duplicates_removed rest
      else remove_duplicates_loop seen_products unique_data
             (S duplicates_removed) rest
  end.

Definition remove_duplicates (data : list record) : list record :=
  (remove_duplicates_loop ∅ [] 0%nat data).1.

(** The number the function reports as removed. *)
Definition duplicates_removed (data : list record) : nat :=
  (remove_duplicates_loop ∅ [] 0%nat data).2.

(** The same loop without its accumulators: the rows it appends,
    given the signatures already seen.  Used to reason about the
    loop. *)
Fixpoint keep_new (seen_products : gset record) (data : list record)
    : list record :=
  match data with
  | [] => []
  | row :: rest =>
      if decide (product_signature row ∉ seen_products)
      then row :: keep_new ({[product_signature row]} ∪ seen_products) rest
      else keep_new seen_products rest
  end.

(** Stated from the specification: a field matches in two records
    after trimming when it is missing in both, or holds text in both
    with the same [strip], or holds the same value that is not text in
    both. *)
Definition same_trimmed (o1 o2 : option value) : Prop :=
  match o1, o2 with
  | None, None => True
  | Some (VStr s1), Some (VStr s2) => Py.strip s1 = Py.strip s2
  | Some (VInt n1), Some (VInt n2) => n1 = n2
  | Some (VLinks l1), Some (VLinks l2) => l1 = l2
  | _, _ => False
  end.

(** Stated from the specification: two records are equal for the
    de-duplicator when all their non-link fields (keys not ending in
    [_links]) match after trimming. *)
Definition equivalent (r1 r2 : record) : Prop :=
  ∀ k, Py.endswith k "_links" = false → same_trimmed (r1 !! k) (r2 !! k).

(** Stated from the specification: [first_occurrences earlier data out]
    holds when [out] lists, in order, the records of [data] that are
    equivalent to no record before them ([earlier] holding the records
    that precede [data]). *)
Inductive first_occurrences
    : list record → list record → list record → Prop :=
  | first_occurrences_nil earlier :
      first_occurrences earlier [] []
  | first_occurrences_keep earlier r rest out :
      (∀ y, y ∈ earlier → ¬ equivalent y r) →
      first_occurrences (earlier ++ [r]) rest out →
      first_occurrences earlier (r :: rest) (r :: out)
  | first_occurrences_drop earlier r rest out :
      (∃ y, y ∈ earlier ∧ equivalent y r) →
      first_occurrences (earlier ++ [r]) rest out →
      first_occurrences earlier (r :: rest) out.

End Dedup.

(** ** Table extraction ([extract_table_data], [map_column_headers],
    [is_grouping_row]) *)

Module Extract.

(** What the HTML parser returns for one [td]/[th]: the text of
    [get_text(strip=True)] and the anchors of [find_all('a')]. *)
Record cell := Cell { cell_text : string; cell_links : list link }.

(** A row is [tr.find_all(['td','th'])], a table is
    [table.find_all('tr')]. *)
Abbreviation row := (list cell).
Abbreviation table := (list row).

(** [f"Column_{n}"] *)
Definition column_name (n : nat) : string := "Column_" +:+ pretty n.

(** First pass of the table choice: the table with the most header
    cells among those with at least two rows and at least ten
    columns. *)
Fixpoint widest_table (tables : list table) (main_table : option table)
    (max_columns : nat) : option table * nat :=
  match tables with
  | [] => (main_table, max_columns)
  | t :: rest =>
      match t with
      | first_row :: _ :: _ =>
          let columns := length first_row in
          if (max_columns <? columns)%nat && (10 <=? columns)%nat
          then widest_table rest (Some t) columns
          else widest_table rest main_table max_columns
      | _ => widest_table rest main_table max_columns
      end
  end.

(** Fallback: the table with the most rows. *)
Fixpoint longest_table (tables : list table) (main_table : option table)
    (max_rows : nat) : option table :=
  match tables with
  | [] => main_table
  | t :: rest =>
      if (max_rows <? length t)%nat
      then longest_table rest (Some t) (length t)
      else longest_table rest main_table max_rows
  end.

Definition select_main_table (tables : list table) : option table :=
  match (widest_table tables None 0%nat).1 with
  | Some t => Some t
  | None => longest_table tables None 0%nat
  end.

(** The header names: the cell text, or [Column_N] for a blank cell,
    [N] being the 1-based position. *)
Fixpoint extract_headers (cells : row) (headers : list string)
    : list string :=
  match cells with
  | [] => headers
  | c :: rest =>
      let header_text := cell_text c in
      extract_headers rest
        (headers ++ [if Py.truthy header_text then header_text
                     else column_name (length headers + 1)])
  end.

(** [headers[col_idx] if col_idx < len(headers)
     else f"Column_{col_idx + 1}"] *)
Definition header_at (headers : list string) (col_idx : nat) : string :=
  default (column_name (col_idx + 1)) (headers !! col_idx).

(** The inner loop over the cells of one data row. *)
Fixpoint fill_row (headers : list string) (col_idx : nat) (cells : row)
    (row_data : record) : record :=
  match cells with
  | [] => row_data
  | c :: rest =>
      let header := header_at headers col_idx in
      let row_data := <[header := VStr (cell_text c)]> row_data in
      let row_data :=
        match cell_links c with
        | [] => row_data
        | links => <[header +:+ "_links" := VLinks links]> row_data
        end in
      fill_row headers (S col_idx) rest row_data
  end.

(** The outer loop over [enumerate(rows[1:])]; rows without cells are
    skipped but still counted by [row_idx]. *)
Fixpoint raw_rows (page_num : Z) (source_url : string)
    (headers : list string) (row_idx : nat) (rows : list row)
    : list record :=
  match rows with
  | [] => []
  | cells :: rest =>
      match cells with
      | [] => raw_rows page_num source_url headers (S row_idx) rest
      | _ =>
          let row_data : record :=
            <["source_url" := VStr source_url]>
              (<["row_index" := VInt (Z.of_nat row_idx)]>
                 (<["page_number" := VInt page_num]> ∅)) in
          fill_row headers 0%nat cells row_data
            :: raw_rows page_num source_url headers (S row_idx) rest
      end
  end.

Definition required_fields : list string :=
  ["Column_2"; "Column_3"; "Column_4"; "Column_10"].

Definition placeholder_values : list string := [""; "-"; "N/A"; "NR"].

(** [row.get(field, '').strip()]; [None] stands for the
    [AttributeError] raised when the stored value is not a string. *)
Definition get_stripped (r : record) (field : string) : option string :=
  match default (VStr "") (r !! field) with
  | VStr s => Some (Py.strip s)
  | _ => None
  end.

(** [value and value not in ['', '-', 'N/A', 'NR']] *)
Definition has_data (value : string) : bool :=
  Py.truthy value && negb (bool_decide (value ∈ placeholder_values)).

Fixpoint count_filled (r : record) (fields : list string)
    (filled_fields : nat) : option nat :=
  match fields with
  | [] => Some filled_fields
  | field :: rest =>
      value ← get_stripped r field;
      count_filled r rest
        (if has_data value then S filled_fields else filled_fields)
  end.

Definition is_grouping_row (r : record) : option bool :=
  filled_fields ← count_filled r required_fields 0%nat;
  if (filled_fields <? 2)%nat then Some true
  else
    group_by ← get_stripped r "Column_1";
    if Py.truthy group_by && (filled_fields =? 0)%nat then Some true
    else Some false.

Definition column_mapping : list (string * string) :=
  [ ("Column_2", "Company_Product_Name");
    ("Column_3", "AM_Best");
    ("Column_4", "Max_Issue_Age");
    ("Column_5", "Min_Premium");
    ("Column_6", "SC_Years");
    ("Column_7", "Free_Withdrawal_Yr1_Yr2");
    ("Column_8", "Last_Change");
    ("Column_9", "Premium_Bonus");
    ("Column_10", "Current_Rate");
    ("Column_11", "Base_Rate");
    ("Column_12", "Years");
    ("Column_13", "GTD_Yield_Rate");
    ("Column_14", "Commission") ].

Definition nl : string := String "010"%char EmptyString.

(** The three [str.replace] calls that tidy fractions broken over
    lines; other values pass unchanged. *)
Definition clean_value (v : value) : value :=
  match v with
  | VStr s =>
      let s := Py.replace (nl +:+ "/" +:+ nl) " / " s in
      let s := Py.replace (nl +:+ "/") " /" s in
      let s := Py.replace ("/" +:+ nl) "/ " s in
      VStr s
  | _ => v
  end.

Fixpoint map_row (mapping : list (string * string)) (r mapped_row : record)
    : record :=
  match mapping with
  | [] => mapped_row
  | (old_key, new_key) :: rest =>
      match r !! old_key with
      | Some v => map_row rest r (<[new_key := clean_value v]> mapped_row)
      | None => map_row rest r mapped_row
      end
  end.

(** [None] when [is_grouping_row] raises on some row. *)
Fixpoint map_column_headers (data : list record) : option (list record) :=
  match data with
  | [] => Some []
  | r :: rest =>
      grouping ← is_grouping_row r;
      mapped ← map_column_headers rest;
      Some (if grouping : bool then mapped
            else map_row column_mapping r ∅ :: mapped)
  end.

(** [extract_table_data]: [tables] is [soup.find_all('table')]; the
    [except] clause turns any exception into the empty list. *)
Definition extract_table_data (page_num : Z) (source_url : string)
    (tables : list table) : list record :=
  match select_main_table tables with
  | None => []
  | Some main_table =>
      match main_table with
      | [] => []
      | header_row :: data_rows =>
          let headers := extract_headers header_row [] in
          let all_data := raw_rows page_num source_url headers 0%nat data_rows in
          default [] (map_column_headers all_data)
      end
  end.

(** Stated from the specification: a key column is populated when it
    holds a text that, once trimmed, is neither empty nor one of the
    placeholder values. *)
Definition populated (r : record) (field : string) : Prop :=
  match r !! field with
  | Some (VStr s) => Py.strip s ≠ "" ∧ Py.strip s ∉ placeholder_values
  | _ => False
  end.

Global Instance populated_dec r field : Decision (populated r field).
Proof. unfold populated. destruct (r !! field) as [[]|]; apply _. Defined.

(** The number of populated key columns of a record. *)
Definition populated_count (r : record) : nat :=
  length (filter (populated r) required_fields).

(** The name of the header cell at 0-based position [i]: its text, or
    [Column_N] with [N = i + 1] when the text is blank. *)
Definition header_name (i : nat) (c : cell) : string :=
  if Py.truthy (cell_text c) then cell_text c else column_name (i + 1).

(** The keys one cell contributes to its row's record: its header
    and, when the cell has anchors, the header with [_links]
    appended. *)
Definition cell_keys (headers : list string) (col_idx : nat) (c : cell)
    : list string :=
  header_at headers col_idx
    :: match cell_links c with
       | [] => []
       | _ => [header_at headers col_idx +:+ "_links"]
       end.

Fixpoint row_keys_from (headers : list string) (col_idx : nat) (cells : row)
    : list string :=
  match cells with
  | [] => []
  | c :: rest =>
      cell_keys headers col_idx c ++ row_keys_from headers (S col_idx) rest
  end.

Definition row_keys (headers : list string) (cells : row) : list string :=
  row_keys_from headers 0 cells.

(** The three metadata keys every raw record starts with. *)
Definition metadata_keys : gset string :=
  {[ "page_number"; "row_index"; "source_url" ]}.

(** The keys a mapped record can hold. *)
Definition mapped_names : list string := column_mapping.*2.

(** The columns [is_grouping_row] reads hold text where present. *)
Definition textual (r : record) (field : string) : Prop :=
  match r !! field with
  | Some (VStr _) | None => True
  | Some _ => False
  end.

Definition grouping_fields_textual (r : record) : Prop :=
  Forall (textual r) ("Column_1" :: required_fields).

(** Every value of a raw record is a cell text, except the two integer
    metadata fields and the link lists, which sit under keys ending in
    [_links]. *)
Definition raw_typed (r : record) : Prop :=
  ∀ k v, r !! k = Some v →
    match v with
    | VStr _ => True
    | VInt _ => k = "page_number" ∨ k = "row_index"
    | VLinks _ => Py.endswith k "_links" = true
    end.

(** The number of header cells of a table, as the first pass counts
    them. *)
Definition columns_of (t : table) : nat := length (default [] (head t)).

(** A table the first pass of the choice accepts: at least two rows
    and at least ten header cells. *)
Definition wide_enough (t : table) : Prop :=
  (2 ≤ length t)%nat ∧ (10 ≤ columns_of t)%nat.

(** A record of mapped product fields only: its keys are among the
    thirteen mapped names and its values are text. *)
Definition product_record (r : record) : Prop :=
  dom r ⊆ list_to_set mapped_names
  ∧ ∀ k v, r !! k = Some v → ∃ s, v = VStr s.

(** [scrape_page]: [fetched] is the page the browser ends up on, its
    URL and parsed tables, or [None] when loading it raises; the
    [except] clause turns that into the empty list. *)
Definition scrape_page (page_num : Z)
    (fetched : option (string * list table)) : list record :=
  match fetched with
  | Some (source_url, tables) => extract_table_data page_num source_url tables
  | None => []
  end.

End Extract.

(** ** The pagination loop ([scrape_all_pages], [create_page_signature]) *)

Module Crawl.

(** What one pass through the [try] body of the loop meets.
    [Returned page_data]: [scrape_page] returns [page_data] and the
    body runs on.  [Raised]: a statement of the body raises before the
    loop's variables are touched, which sends the loop to its own
    [except] branch.  [scrape_page] catches every [Exception] itself
    and returns the empty list, so a crawl fed by [scrape_page] only
    ever meets [Returned]; [Raised] is there because the loop has the
    branch. *)
Inductive page_outcome :=
  | Returned (page_data : list record)
  | Raised.

(** The local variables of [scrape_all_pages]. *)
Record state := State {
  all_data : list record;
  page_num : Z;
  consecutive_empty_pages : nat;
  last_page_data_signature : option string
}.

Definition initial_state : state :=
  {| all_data := [];
     page_num := 1;
     consecutive_empty_pages := 0;
     last_page_data_signature := None |}.

(** How an iteration leaves the loop body: [break], or on to the next
    iteration. *)
Inductive control :=
  | Continue (st : state)
  | Break (st : state).

Section Formatting.

(** Python's [str()] of a value that is not a string (an [int], a list
    of link dicts), as an f-string renders it.  A builtin of the
    language, kept abstract. *)
Variable py_str : value → string.

(** [f"{v}"] *)
Definition format_value (v : value) : string :=
  match v with
  | VStr s => s
  | _ => py_str v
  end.

(** [f"{company}:{rate}"] for one product. *)
Definition product_entry (product : record) : string :=
  let company := default (VStr "") (product !! "Company_Product_Name") in
  let rate := default (VStr "") (product !! "Current_Rate") in
  format_value company +:+ ":" +:+ format_value rate.

(** [create_page_signature]: the first three products and, on a page
    of more than six, the last three. *)
Definition create_page_signature (page_data : list record) : string :=
  match page_data with
  | [] => "empty"
  | _ =>
      let n := length page_data in
      let first := take (Nat.min 3 n) page_data in
      let last :=
        if (6 <? n)%nat then drop (Nat.max 3 (n - 3)) page_data else [] in
      Py.join "|" (product_entry <$> (first ++ last))
  end.

(** [max_pages and page_num >= max_pages] *)
Definition limit_reached (max_pages : option Z) (page_num : Z) : bool :=
  match max_pages with
  | Some m => negb (m =? 0) && (m <=? page_num)
  | None => false
  end.

(** [last_page_data_signature and
     page_signature == last_page_data_signature] *)
Definition same_as_last (last : option string) (page_signature : string)
    : bool :=
  match last with
  | Some l => Py.truthy l && String.eqb page_signature l
  | None => false
  end.

(** The end of the [try] body: the [max_pages] check, then
    [page_num += 1]. *)
Definition next_page (max_pages : option Z) (st : state) : control :=
  if limit_reached max_pages (page_num st) then Break st
  else Continue {| all_data := all_data st;
                   page_num := page_num st + 1;
                   consecutive_empty_pages := consecutive_empty_pages st;
                   last_page_data_signature := last_page_data_signature st |}.

(** One iteration of [while True]. *)
Definition iteration (max_pages : option Z) (st : state) (o : page_outcome)
    : control :=
  match o with
  | Returned page_data =>
      match page_data with
      | _ :: _ =>
          let page_signature := create_page_signature page_data in
          if same_as_last (last_page_data_signature st) page_signature
          then Break st
          else
            next_page max_pages
              {| all_data := all_data st ++ page_data;
                 page_num := page_num st;
                 consecutive_empty_pages := 0;
                 last_page_data_signature := Some page_signature |}
      | [] =>
          let st' := {| all_data := all_data st;
                        page_num := page_num st;
                        consecutive_empty_pages := S (consecutive_empty_pages st);
                        last_page_data_signature := last_page_data_signature st |} in
          if (3 <=? consecutive_empty_pages st')%nat then Break st'
          else next_page max_pages st'
      end
  | Raised =>
      let st' := {| all_data := all_data st;
                    page_num := page_num st;
                    consecutive_empty_pages := S (consecutive_empty_pages st);
                    last_page_data_signature := last_page_data_signature st |} in
      if (3 <=? consecutive_empty_pages st')%nat then Break st'
      else Continue {| all_data := all_data st';
                       page_num := page_num st' + 1;
                       consecutive_empty_pages := consecutive_empty_pages st';
                       last_page_data_signature := last_page_data_signature st' |}
  end.

(** The [while True] loop, [fuel] bounding the number of iterations;
    [pages n] is what the request for page [n] meets.  [None] means the
    loop is still running when the fuel is spent. *)
Fixpoint scrape_loop (fuel : nat) (pages : Z → page_outcome)
    (max_pages : option Z) (st : state) : option state :=
  match fuel with
  | O => None
  | S fuel' =>
      match iteration max_pages st (pages (page_num st)) with
      | Break st' => Some st'
      | Continue st' => scrape_loop fuel' pages max_pages st'
      end
  end.

(** [scrape_all_pages]: the loop, then [remove_duplicates]. *)
Definition scrape_all_pages (fuel : nat) (pages : Z → page_outcome)
    (max_pages : option Z) : option (list record) :=
  st ← scrape_loop fuel pages max_pages initial_state;
  Some (Dedup.remove_duplicates (all_data st)).

(** The loop returns: some number of iterations reaches a [break]. *)
Definition terminates (pages : Z → page_outcome) (max_pages : option Z)
    : Prop :=
  ∃ fuel result, scrape_all_pages fuel pages max_pages = Some result.

(** The state at the head of the loop after [n] iterations, when none
    of them left the loop. *)
Fixpoint state_after (n : nat) (pages : Z → page_outcome)
    (max_pages : option Z) : option state :=
  match n with
  | O => Some initial_state
  | S n' =>
      st ← state_after n' pages max_pages;
      match iteration max_pages st (pages (page_num st)) with
      | Continue st' => Some st'
      | Break _ => None
      end
  end.

(** A page that adds nothing: it yields no record or its request
    raises. *)
Definition fruitless (o : page_outcome) : Prop :=
  match o with
  | Returned [] | Raised => True
  | Returned (_ :: _) => False
  end.

(** The records of pages [1] to [n], in page order. *)
Fixpoint collected (n : nat) (pages : Z → page_outcome) : list record :=
  match n with
  | O => []
  | S n' =>
      collected n' pages
      ++ match pages (Z.of_nat n) with
         | Returned page_data => page_data
         | Raised => []
         end
  end.

(** The signature of the last page among [1] to [n] that yielded
    records. *)
Fixpoint most_recent_signature (n : nat) (pages : Z → page_outcome)
    : option string :=
  match n with
  | O => None
  | S n' =>
      match pages (Z.of_nat n) with
      | Returned (r :: page_data) =>
          Some (create_page_signature (r :: page_data))
      | _ => most_recent_signature n' pages
      end
  end.

(** Page [n + 1] repeats: it yields records whose signature is that
    of the last page among [1] to [n] that yielded records. *)
Definition repeats (n : nat) (pages : Z → page_outcome) : Prop :=
  ∃ page_data,
    pages (Z.of_nat (S n)) = Returned page_data ∧ page_data ≠ []
    ∧ most_recent_signature n pages
      = Some (create_page_signature page_data).

End Formatting.

End Crawl.

(** ** CSV header ([save_to_csv]) *)

Module Csv.

Definition preferred_order : list string :=
  [ "Carrier_Product_Name"; "AM_Best"; "Max_Issue_Age"; "Min_Premium";
    "SC_Years"; "Free_Withdrawal_Yr1_Yr2"; "Last_Change"; "Premium_Bonus";
    "Current_Rate"; "Base_Rate"; "Years_Rate_GTD"; "GTD_Yield_Surrender";
    "Commission" ].

(** The set built by [all_columns.update(row.keys())]. *)
Definition collect_columns (data : list record) : gset string :=
  foldl (λ all_columns (r : record), all_columns ∪ dom r) ∅ data.

(** The loop over [preferred_order]: a preferred column present in the
    data moves from [all_columns] to the end of [columns]. *)
Fixpoint take_preferred (preferred : list string) (columns : list string)
    (all_columns : gset string) : list string * gset string :=
  match preferred with
  | [] => (columns, all_columns)
  | col :: rest =>
      if decide (col ∈ all_columns)
      then take_preferred rest (columns ++ [col]) (all_columns ∖ {[col]})
      else take_preferred rest columns all_columns
  end.

(** The [fieldnames] handed to [csv.DictWriter]. *)
Definition csv_columns (data : list record) : list string :=
  let '(columns, all_columns) :=
    take_preferred preferred_order [] (collect_columns data) in
  columns ++ Py.sorted (elements all_columns).

(** The header row [save_to_csv] writes; [None] when [data] is empty
    and nothing is written. *)
Definition save_to_csv_header (data : list record) : option (list string) :=
  match data with
  | [] => None
  | _ => Some (csv_columns data)
  end.

(** A column occurs in the data when it is a key of some record. *)
Definition occurs (data : list record) (c : string) : Prop :=
  Exists (λ r : record, is_Some (r !! c)) data.

Global Instance occurs_dec data c : Decision (occurs data c).
Proof. unfold occurs. apply _. Defined.

End Csv.

(** ** Database sinks ([mssql_utils.py], [scraping/db_utils.py]) *)

Module Sink.

(** The cell values the sinks distinguish: [None] (also what
    [row.get(col)] gives for a missing key), a [str], an [int], a
    [float].  Floats are opaque values of a type [F]. *)
Inductive dbvalue (F : Type) :=
  | DNone
  | DStr (s : string)
  | DInt (n : Z)
  | DFloat (x : F).
Arguments DNone {F}.
Arguments DStr {F} s.
Arguments DInt {F} n.
Arguments DFloat {F} x.

Definition NUMERIC_DECIMAL_TYPE : string := "DECIMAL(20,6)".

(** [re.compile(r"^\d+$").fullmatch(s)] *)
Definition int_regex (s : string) : bool := Py.truthy s && Py.all_digits s.

(** [re.compile(r"^\d+\.\d+$").fullmatch(s)]: digits, one dot,
    digits. *)
Fixpoint dec_regex_go (seen_digit : bool) (s : string) : bool :=
  match s with
  | EmptyString => false
  | String c s' =>
      if Py.is_digit c then dec_regex_go true s'
      else if Ascii.eqb c "."%char then seen_digit && int_regex s'
      else false
  end.

Definition dec_regex (s : string) : bool := dec_regex_go false s.

Section Values.

Context {F : Type}.

(** [v in (None, "", "-", "N/A")] *)
Definition is_blank (v : dbvalue F) : bool :=
  match v with
  | DNone => true
  | DStr s => bool_decide (s ∈ [""; "-"; "N/A"])
  | _ => false
  end.

(** The [candidate] of one value that is not blank; [None] is the
    branch that resets [inferred] and breaks. *)
Definition candidate_type (v : dbvalue F) : option string :=
  match v with
  | DInt _ => Some "INT"
  | DFloat _ => Some NUMERIC_DECIMAL_TYPE
  | DStr v =>
      let s := Py.strip (Py.replace "," "" v) in
      if int_regex s then Some "INT"
      else if dec_regex s then Some NUMERIC_DECIMAL_TYPE
      else None
  | DNone => None
  end.

(** The inner loop of [_infer_column_types] for one column. *)
Fixpoint infer_column (col : string) (inferred : option string)
    (data : list (gmap string (dbvalue F))) : option string :=
  match data with
  | [] => inferred
  | r :: rest =>
      let v := default DNone (r !! col) in
      if is_blank v then infer_column col inferred rest
      else
        match candidate_type v with
        | None => None
        | Some candidate =>
            match inferred with
            | None => infer_column col (Some candidate) rest
            | Some t =>
                if String.eqb t "INT"
                   && String.eqb candidate NUMERIC_DECIMAL_TYPE
                then infer_column col (Some NUMERIC_DECIMAL_TYPE) rest
                else infer_column col inferred rest
            end
        end
  end.

(** [_infer_column_types]: the dict [types]. *)
Definition _infer_column_types (data : list (gmap string (dbvalue F)))
    (columns : list string) : gmap string string :=
  foldl (λ types col,
           match infer_column col None data with
           | Some t => if Py.truthy t then <[col := t]> types else types
           | None => types
           end) ∅ columns.

(** Python's [str(x)] of a float: a builtin of the language, kept
    abstract. *)
Variable float_str : F → string.

(** [str(value)] *)
Definition py_str (v : dbvalue F) : string :=
  match v with
  | DNone => "None"
  | DStr s => s
  | DInt n => pretty n
  | DFloat x => float_str x
  end.

End Values.

(** *** SQL Server *)

Module Mssql.

Definition DEFAULT_COLUMN_TYPE : string := "NVARCHAR(MAX)".

Definition default_numeric : list (string * string) :=
  [ ("Min_Premium", "INT");
    ("Max_Issue_Age", "INT");
    ("Current_Rate", NUMERIC_DECIMAL_TYPE);
    ("Base_Rate", NUMERIC_DECIMAL_TYPE);
    ("GTD_Yield_Rate", NUMERIC_DECIMAL_TYPE) ].

Section Save.

Context {F : Type}.

(** Python's [int(s)] and [float(s)] on a string ([None]: the call
    raises) and [str(x)] of a float: builtins of the language, kept
    abstract. *)
Variable py_int : string → option Z.
Variable py_float : string → option F.
Variable float_str : F → string.

(** [_convert] of [mssql_utils.py]; a raised exception and the
    fall-through both return [None]. *)
Definition _convert (value : dbvalue F) (col_type : string) : dbvalue F :=
  if is_blank value then DNone
  else if String.eqb col_type "INT" then
    match py_int (Py.replace "," "" (py_str float_str value)) with
    | Some n => DInt n
    | None => DNone
    end
  else if Py.startswith col_type "DECIMAL" then
    match py_float (Py.replace "," "" (py_str float_str value)) with
    | Some x => DFloat x
    | None => DNone
    end
  else DNone.

(** The column list: the sorted union of the rows' keys, or the
    caller's list. *)
Definition derive_columns (data : list (gmap string (dbvalue F)))
    (explicit_columns : option (list string)) : list string :=
  match explicit_columns with
  | None =>
      Py.sorted (elements
        (foldl (λ col_set (r : gmap string (dbvalue F)), col_set ∪ dom r)
               (∅ : gset string) data))
  | Some columns => columns
  end.

(** The dict [inferred] once the overrides and the built-in numeric
    defaults have been applied. *)
Definition resolve_types (data : list (gmap string (dbvalue F)))
    (columns : list string)
    (column_type_overrides : option (gmap string string))
    : gmap string string :=
  let inferred := _infer_column_types data columns in
  let inferred :=
    match column_type_overrides with
    | Some overrides =>
        if decide (overrides = ∅) then inferred else overrides ∪ inferred
    | None => inferred
    end in
  foldl (λ (inferred : gmap string string) '(col, typ),
           if bool_decide (col ∈ columns)
              && bool_decide (inferred !! col = None)
           then <[col := typ]> inferred else inferred)
        inferred default_numeric.

(** [inferred.get(c, DEFAULT_COLUMN_TYPE)] *)
Definition column_type (inferred : gmap string string) (c : string)
    : string :=
  default DEFAULT_COLUMN_TYPE (inferred !! c).

(** What [save_annuity_data_to_mssql] hands to the driver. *)
Record plan := Plan {
  plan_columns : list string;
  plan_col_defs : list (string * string);
  plan_rows : list (list (dbvalue F))
}.

(** [None]: [data] is empty and nothing is saved. *)
Definition save_annuity_data_to_mssql
    (data : list (gmap string (dbvalue F)))
    (explicit_columns : option (list string))
    (column_type_overrides : option (gmap string string)) : option plan :=
  match data with
  | [] => None
  | _ =>
      let columns := derive_columns data explicit_columns in
      let inferred := resolve_types data columns column_type_overrides in
      Some {| plan_columns := columns;
              plan_col_defs := (λ c, (c, column_type inferred c)) <$> columns;
              plan_rows :=
                (λ r : gmap string (dbvalue F),
                   (λ c, _convert (default DNone (r !! c))
                                  (column_type inferred c)) <$> columns)
                <$> data |}
  end.

End Save.

End Mssql.

(** *** MySQL *)

Module Mysql.

Definition DEFAULT_COLUMN_TYPE : string := "TEXT".

Section Convert.

Context {F : Type}.
Variable py_int : string → option Z.
Variable py_float : string → option F.
Variable float_str : F → string.

(** [_convert_value_for_db] of [db_utils.py]; a raised exception and
    the fall-through both return the value itself. *)
Definition _convert_value_for_db (value : dbvalue F) (col_type : string)
    : dbvalue F :=
  if is_blank value then DNone
  else if String.eqb col_type "INT" then
    match py_int (Py.replace "," "" (py_str float_str value)) with
    | Some n => DInt n
    | None => value
    end
  else if Py.startswith col_type "DECIMAL" then
    match py_float (Py.replace "," "" (py_str float_str value)) with
    | Some x => DFloat x
    | None => value
    end
  else value.

End Convert.

End Mysql.

End Sink.

(** * Properties *)

(** ** Trimming *)

Section StripFacts.

Lemma lstrip_all_space ws : Py.all_space ws = true → Py.lstrip ws = "".
Proof.
  induction ws as [|c ws IH]; simpl; [done|].
  intros [Hc Hws]%andb_prop. by rewrite Hc, IH.
Qed.

Lemma lstrip_space_app ws s :
  Py.all_space ws = true → Py.lstrip (ws +:+ s) = Py.lstrip s.
Proof.
  induction ws as [|c ws IH]; simpl; [done|].
  intros [Hc Hws]%andb_prop. by rewrite Hc, IH.
Qed.

Lemma rstrip_all_space ws : Py.all_space ws = true → Py.rstrip ws = "".
Proof.
  induction ws as [|c ws IH]; simpl; [done|].
  intros [Hc Hws]%andb_prop. by rewrite IH, Hc.
Qed.

Lemma rstrip_app_space s ws :
  Py.all_space ws = true → Py.rstrip (s +:+ ws) = Py.rstrip s.
Proof.
  intros Hws. induction s as [|c s IH]; simpl.
  - by apply rstrip_all_space.
  - by rewrite IH.
Qed.

Lemma strip_app_space s ws :
  Py.all_space ws = true → Py.strip (s +:+ ws) = Py.strip s.
Proof.
  intros Hws. unfold Py.strip. induction s as [|c s IH].
  - change ("" +:+ ws) with ws. by rewrite (lstrip_all_space ws Hws).
  - change (String c s +:+ ws) with (String c (s +:+ ws)).
    cbn [Py.lstrip]. destruct (Py.is_pyspace c); [done|].
    by apply (rstrip_app_space (String c s)).
Qed.

(** Padding a cell text with white space on either side does not
    change what [strip] returns. *)
Lemma strip_padded ws1 s ws2 :
  Py.all_space ws1 = true → Py.all_space ws2 = true →
  Py.strip (ws1 +:+ s +:+ ws2) = Py.strip s.
Proof.
  intros H1 H2. unfold Py.strip at 1. rewrite (lstrip_space_app _ _ H1).
  by apply strip_app_space.
Qed.

End StripFacts.

(** ** De-duplication *)

Section DedupFacts.

Import Dedup.

Implicit Types (r : record) (seen : gset record) (data : list record).

Lemma product_signature_lookup r k :
  product_signature r !! k =
    if Py.endswith k "_links" then None else normalize <$> r !! k.
Proof.
  unfold product_signature. rewrite lookup_fmap.
  destruct (Py.endswith k "_links") eqn:Hk.
  - rewrite (proj2 (map_lookup_filter_None _ r k)); [done|].
    right. intros v _ Hv. simpl in Hv. congruence.
  - destruct (r !! k) as [v|] eqn:Hr.
    + by rewrite (proj2 (map_lookup_filter_Some _ r k v)).
    + rewrite (proj2 (map_lookup_filter_None _ r k)); [done|]. by left.
Qed.

(** The code's normalisation decides the specification's match. *)
Lemma same_trimmed_normalize (o1 o2 : option value) :
  same_trimmed o1 o2 ↔ normalize <$> o1 = normalize <$> o2.
Proof.
  destruct o1 as [[s1|n1|l1]|], o2 as [[s2|n2|l2]|]; simpl;
    split; try done; try congruence; by intros [= ?].
Qed.

(** The signatures agree exactly on equivalent records. *)
Lemma product_signature_equivalent r1 r2 :
  product_signature r1 = product_signature r2 ↔ equivalent r1 r2.
Proof.
  split.
  - intros Heq k Hk. apply same_trimmed_normalize.
    pose proof (f_equal (λ m : record, m !! k) Heq) as Hl. simpl in Hl.
    by rewrite !product_signature_lookup, Hk in Hl.
  - intros Heq. apply map_eq. intros k.
    rewrite !product_signature_lookup.
    destruct (Py.endswith k "_links") eqn:Hk; [done|].
    by apply same_trimmed_normalize, Heq.
Qed.

Lemma remove_duplicates_loop_keep_new seen unique_data n data :
  (remove_duplicates_loop seen unique_data n data).1
  = unique_data ++ keep_new seen data.
Proof.
  revert seen unique_data n.
  induction data as [|row rest IH]; intros seen unique_data n; simpl.
  - by rewrite app_nil_r.
  - case_decide.
    + by rewrite IH, <- app_assoc.
    + apply IH.
Qed.

Lemma remove_duplicates_keep_new data :
  remove_duplicates data = keep_new ∅ data.
Proof. apply (remove_duplicates_loop_keep_new ∅ [] 0%nat). Qed.

(** What the loop keeps is new with respect to [seen] and pairwise
    distinct by signature. *)
Lemma keep_new_fresh seen data :
  Forall (λ r, product_signature r ∉ seen) (keep_new seen data)
  ∧ NoDup (product_signature <$> keep_new seen data).
Proof.
  revert seen. induction data as [|row rest IH]; intros seen; simpl.
  - split; [constructor | apply NoDup_nil_2].
  - case_decide as Hrow; [|apply IH].
    destruct (IH ({[product_signature row]} ∪ seen)) as [Hfresh Hnodup].
    split.
    + constructor; [done|].
      eapply Forall_impl; [exact Hfresh|]. simpl. set_solver.
    + rewrite fmap_cons. apply NoDup_cons. split; [|done].
      intros (r & Hsig & Hin)%list_elem_of_fmap.
      rewrite Forall_forall in Hfresh. specialize (Hfresh r Hin). set_solver.
Qed.

(** On a list that is already free of duplicates the loop keeps
    everything. *)
Lemma keep_new_id seen data :
  Forall (λ r, product_signature r ∉ seen) data →
  NoDup (product_signature <$> data) →
  keep_new seen data = data.
Proof.
  revert seen. induction data as [|row rest IH]; intros seen Hfresh Hnodup;
    simpl; [done|].
  apply Forall_cons in Hfresh as [Hrow Hrest].
  rewrite fmap_cons in Hnodup. apply NoDup_cons in Hnodup as [Hnotin Hnodup].
  rewrite decide_True by done. f_equal. apply IH; [|done].
  rewrite Forall_forall in Hrest |- *. intros r Hr.
  specialize (Hrest r Hr).
  assert (product_signature r ≠ product_signature row).
  { intros Heq. apply Hnotin. rewrite <- Heq. by apply list_elem_of_fmap_2. }
  set_solver.
Qed.

Lemma keep_new_sublist seen data : sublist (keep_new seen data) data.
Proof.
  revert seen. induction data as [|row rest IH]; intros seen; simpl.
  - constructor.
  - case_decide; [apply sublist_skip | apply sublist_cons]; apply IH.
Qed.

Lemma keep_new_app seen data1 data2 :
  keep_new seen (data1 ++ data2)
  = keep_new seen data1
    ++ keep_new (list_to_set (product_signature <$> data1) ∪ seen) data2.
Proof.
  revert seen. induction data1 as [|row rest IH]; intros seen; simpl.
  - f_equal. set_solver.
  - case_decide as Hrow.
    + rewrite IH. simpl. f_equal. f_equal.
      apply (f_equal2 keep_new); [set_solver|done].
    + rewrite IH. f_equal.
      apply (f_equal2 keep_new); [set_solver|done].
Qed.

Lemma keep_new_first_occurrences data : ∀ earlier seen,
  (∀ s, s ∈ seen ↔ ∃ y, y ∈ earlier ∧ product_signature y = s) →
  first_occurrences earlier data (keep_new seen data).
Proof.
  induction data as [|row rest IH]; intros earlier seen Hseen; simpl.
  - constructor.
  - assert (∀ s, s ∈ {[product_signature row]} ∪ seen
                 ↔ ∃ y, y ∈ earlier ++ [row] ∧ product_signature y = s)
      as Hseen'.
    { intros s. rewrite elem_of_union, elem_of_singleton, Hseen. split.
      - intros [->|(y & Hy & <-)].
        + exists row. split; [|done]. apply elem_of_app. right. by left.
        + exists y. split; [|done]. apply elem_of_app. by left.
      - intros (y & [Hy|Hy%list_elem_of_singleton]%elem_of_app & <-).
        + right. by exists y.
        + left. by subst. }
    case_decide as Hrow.
    + apply first_occurrences_keep; [|by apply IH].
      intros y Hy Heq%product_signature_equivalent.
      apply Hrow, Hseen. by exists y.
    + apply Hseen in Hrow as (y & Hy & Hsig).
      apply first_occurrences_drop.
      * exists y. split; [done|]. by apply product_signature_equivalent.
      * apply IH. intros s. rewrite <- Hseen'.
        assert (product_signature row ∈ seen) by (apply Hseen; eauto).
        set_solver.
Qed.

Lemma first_occurrences_functional earlier data out1 out2 :
  first_occurrences earlier data out1 →
  first_occurrences earlier data out2 →
  out1 = out2.
Proof.
  intros H1. revert out2.
  induction H1 as [earlier|earlier r rest out Hnone _ IH
                  |earlier r rest out Hsome _ IH];
    intros out2 H2; inversion H2; subst; try done.
  - f_equal. by apply IH.
  - destruct H3 as (y & Hy & Heq). by destruct (Hnone y Hy).
  - destruct Hsome as (y & Hy & Heq). by destruct (H3 y Hy).
  - by apply IH.
Qed.

(** A record whose value under [k] is padded with white space is
    equivalent to the original. *)
Lemma padded_equivalent r k s ws1 ws2 :
  r !! k = Some (VStr s) →
  Py.all_space ws1 = true → Py.all_space ws2 = true →
  equivalent r (<[k := VStr (ws1 +:+ s +:+ ws2)]> r).
Proof.
  intros Hk H1 H2 k' _. apply same_trimmed_normalize.
  destruct (decide (k = k')) as [<-|Hne].
  - rewrite lookup_insert_eq, Hk. simpl. by rewrite strip_padded.
  - by rewrite lookup_insert_ne.
Qed.

Lemma keep_new_covers seen data r :
  r ∈ data →
  product_signature r ∈ seen
  ∨ ∃ r', r' ∈ keep_new seen data ∧ product_signature r' = product_signature r.
Proof.
  revert seen. induction data as [|row rest IH]; intros seen Hin.
  - by apply not_elem_of_nil in Hin.
  - simpl. apply elem_of_cons in Hin as [->|Hin].
    + case_decide as Hrow.
      * right. exists row. split; [by left|done].
      * by left.
    + case_decide as Hrow.
      * destruct (IH ({[product_signature row]} ∪ seen) Hin)
          as [[Heq%elem_of_singleton|Hseen]%elem_of_union|(r' & Hr' & Hsig)].
        -- right. exists row. split; [by left|done].
        -- by left.
        -- right. exists r'. split; [by right|done].
      * destruct (IH seen Hin) as [Hseen|(r' & Hr' & Hsig)]; [by left|].
        right. by exists r'.
Qed.

Lemma keep_new_drop_equivalent pre r r' post :
  r ∈ pre → equivalent r r' →
  keep_new ∅ (pre ++ r' :: post) = keep_new ∅ (pre ++ post).
Proof.
  intros Hin Heq%product_signature_equivalent.
  rewrite !keep_new_app. f_equal. simpl.
  rewrite decide_False; [done|].
  intros Hnot. apply Hnot. apply elem_of_union_l, elem_of_list_to_set.
  rewrite <- Heq. by apply list_elem_of_fmap_2.
Qed.

End DedupFacts.

(** C5: [remove_duplicates] is idempotent: applied to its own output
    it returns that output unchanged. *)
Theorem remove_duplicates_idempotent (xs : list record) :
  Dedup.remove_duplicates (Dedup.remove_duplicates xs)
  = Dedup.remove_duplicates xs.
Proof.
  rewrite !remove_duplicates_keep_new.
  destruct (keep_new_fresh ∅ xs) as [_ Hnodup].
  apply keep_new_id; [|done].
  apply Forall_forall. intros r _. apply not_elem_of_empty.
Qed.

(** C6: [remove_duplicates] keeps exactly the first occurrence of each
    class of equivalent records (equal non-link fields after
    trimming), in input order; a later record that only differs from
    an earlier one by white-space padding of a value is dropped and
    leaves the rest of the result unchanged; a record that matches no
    other record of the input is kept. *)
Theorem remove_duplicates_first_occurrence (xs : list record) :
  (∀ out, Dedup.first_occurrences [] xs out ↔ out = Dedup.remove_duplicates xs)
  ∧ sublist (Dedup.remove_duplicates xs) xs
  ∧ (∀ r, r ∈ xs →
       (∀ y, y ∈ xs → Dedup.equivalent y r → y = r) →
       r ∈ Dedup.remove_duplicates xs)
  ∧ (∀ pre r r' post,
       xs = pre ++ r' :: post → r ∈ pre → Dedup.equivalent r r' →
       Dedup.remove_duplicates xs = Dedup.remove_duplicates (pre ++ post))
  ∧ (∀ pre r post k s ws1 ws2,
       xs = pre ++ <[k := VStr (ws1 +:+ s +:+ ws2)]> r :: post →
       r ∈ pre → r !! k = Some (VStr s) →
       Py.all_space ws1 = true → Py.all_space ws2 = true →
       Dedup.remove_duplicates xs = Dedup.remove_duplicates (pre ++ post)).
Proof.
  assert (Dedup.first_occurrences [] xs (Dedup.remove_duplicates xs)) as Hfo.
  { rewrite remove_duplicates_keep_new.
    apply keep_new_first_occurrences. intros s. split.
    - by intros ?%not_elem_of_empty.
    - by intros (y & ?%not_elem_of_nil & _). }
  split; [|split; [|split; [|split]]].
  - intros out. split.
    + intros H. by eapply first_occurrences_functional.
    + by intros ->.
  - rewrite remove_duplicates_keep_new. apply keep_new_sublist.
  - intros r Hin Halone. rewrite remove_duplicates_keep_new.
    destruct (keep_new_covers ∅ xs r Hin) as [Hseen|(r' & Hr' & Hsig)].
    + by apply not_elem_of_empty in Hseen.
    + rewrite <- (Halone r'); [done| |by apply product_signature_equivalent].
      eapply elem_of_sublist; [exact Hr'|apply keep_new_sublist].
  - intros pre r r' post -> Hin Heq.
    rewrite !remove_duplicates_keep_new.
    by eapply keep_new_drop_equivalent.
  - intros pre r post k s ws1 ws2 -> Hin Hk H1 H2.
    rewrite !remove_duplicates_keep_new.
    eapply keep_new_drop_equivalent; [done|].
    by apply padded_equivalent.
Qed.

(** ** Grouping rows and column mapping *)

Section ExtractFacts.

Import Extract.

Implicit Types (r : record).

Lemma truthy_nonempty s : Py.truthy s = true ↔ s ≠ "".
Proof. destruct s; simpl; split; congruence. Qed.

Lemma get_stripped_textual r field :
  textual r field →
  get_stripped r field
  = Some (match r !! field with Some (VStr s) => Py.strip s | _ => "" end).
Proof.
  unfold textual, get_stripped.
  destruct (r !! field) as [[]|]; simpl; done.
Qed.

Lemma has_data_populated r field :
  textual r field →
  has_data (match r !! field with Some (VStr s) => Py.strip s | _ => "" end)
    = true
  ↔ populated r field.
Proof.
  unfold textual, populated, has_data.
  destruct (r !! field) as [[s| |]|]; try done.
  intros _.
  by rewrite andb_true_iff, truthy_nonempty, negb_true_iff,
    bool_decide_eq_false.
Qed.

Lemma count_filled_populated r fields n :
  Forall (textual r) fields →
  count_filled r fields n = Some (n + length (filter (populated r) fields))%nat.
Proof.
  revert n. induction fields as [|field rest IH]; intros n Htext; simpl.
  - f_equal. lia.
  - apply Forall_cons in Htext as [Hfield Hrest].
    rewrite (get_stripped_textual _ _ Hfield). simpl.
    rewrite (IH _ Hrest), filter_cons. f_equal.
    pose proof (has_data_populated _ _ Hfield) as Hd.
    destruct (decide (populated r field)) as [Hp|Hp].
    + rewrite (proj2 Hd Hp). simpl. lia.
    + destruct (has_data _); [by destruct Hp; apply Hd|lia].
Qed.

Lemma is_grouping_row_populated r :
  grouping_fields_textual r →
  is_grouping_row r = Some (bool_decide (populated_count r < 2)%nat).
Proof.
  intros [Hgroup Hreq]%Forall_cons. unfold is_grouping_row.
  rewrite (count_filled_populated _ _ _ Hreq). simpl.
  fold (populated_count r).
  destruct (Nat.ltb_spec (populated_count r) 2) as [Hlt|Hge].
  - by rewrite bool_decide_eq_true_2.
  - rewrite (get_stripped_textual _ _ Hgroup). simpl.
    rewrite bool_decide_eq_false_2 by lia.
    destruct (Nat.eqb_spec (populated_count r) 0) as [H0|_]; [lia|].
    by rewrite andb_false_r.
Qed.

End ExtractFacts.

(** C4: a record whose key columns hold text is classified as a
    grouping row exactly when fewer than two of [Column_2], [Column_3],
    [Column_4], [Column_10] are populated (trimmed value non-empty and
    not one of the placeholders), and [map_column_headers] drops such a
    row before any column is mapped. *)
Theorem is_grouping_row_iff (r : record) (rest : list record) :
  Extract.grouping_fields_textual r →
  (Extract.is_grouping_row r = Some true
     ↔ (length (filter (Extract.populated r)
          ["Column_2"; "Column_3"; "Column_4"; "Column_10"]) < 2)%nat)
  ∧ (Extract.is_grouping_row r = Some false
     ↔ (2 ≤ length (filter (Extract.populated r)
          ["Column_2"; "Column_3"; "Column_4"; "Column_10"]))%nat)
  ∧ Extract.map_column_headers (r :: rest)
    = (λ mapped,
         if bool_decide (Extract.populated_count r < 2)%nat then mapped
         else Extract.map_row Extract.column_mapping r ∅ :: mapped)
      <$> Extract.map_column_headers rest.
Proof.
  intros Htext. pose proof (is_grouping_row_populated r Htext) as Hg.
  fold Extract.required_fields. fold (Extract.populated_count r).
  split; [|split].
  - rewrite Hg. split.
    + intros [= H]. by apply bool_decide_eq_true in H.
    + intros H. by rewrite bool_decide_eq_true_2.
  - rewrite Hg. split.
    + intros [= H]. apply bool_decide_eq_false in H. lia.
    + intros H. rewrite bool_decide_eq_false_2; [done|lia].
  - cbn [Extract.map_column_headers].
    generalize (Extract.map_row Extract.column_mapping r ∅). intros m.
    rewrite Hg. cbn [mbind option_bind].
    by destruct (Extract.map_column_headers rest).
Qed.

(** The hypothesis of [is_grouping_row_iff] at a product row and the
    classification it gives. *)
Lemma is_grouping_row_iff_witness :
  let r : record :=
    {[ "Column_2" := VStr "Acme MYGA 5"; "Column_3" := VStr " A+ ";
       "Column_4" := VStr "N/A"; "Column_10" := VStr "-" ]} in
  Extract.grouping_fields_textual r
  ∧ Extract.is_grouping_row r = Some false.
Proof.
  intros r.
  assert (Extract.grouping_fields_textual r) as Htext.
  { repeat constructor. }
  split; [exact Htext|].
  apply (is_grouping_row_iff r [] Htext).
  vm_compute. lia.
Defined.

(** ** Raw records *)

Section RawRowFacts.

Import Extract.

Implicit Types (r : record) (cells : row) (headers : list string).

Lemma rev_app_app s1 s2 acc :
  String.rev_app (s1 +:+ s2) acc = String.rev_app s2 (String.rev_app s1 acc).
Proof.
  revert acc. induction s1 as [|a s1 IH]; intros acc; [done|].
  change (String a s1 +:+ s2) with (String a (s1 +:+ s2)). simpl. apply IH.
Qed.

Lemma string_app_assoc s1 s2 s3 : (s1 +:+ s2) +:+ s3 = s1 +:+ s2 +:+ s3.
Proof.
  induction s1 as [|a s1 IH]; [done|].
  change (String a ((s1 +:+ s2) +:+ s3) = String a (s1 +:+ s2 +:+ s3)).
  by f_equal.
Qed.

Lemma rev_app_acc s acc : String.rev_app s acc = String.rev_app s "" +:+ acc.
Proof.
  revert acc. induction s as [|a s IH]; intros acc; simpl; [done|].
  rewrite (IH (String a acc)), (IH (String a "")).
  by rewrite string_app_assoc.
Qed.

Lemma startswith_app p s : Py.startswith (p +:+ s) p = true.
Proof.
  induction p as [|a p IH]; [done|].
  change (String a p +:+ s) with (String a (p +:+ s)). simpl.
  by rewrite Ascii.eqb_refl.
Qed.

Lemma endswith_app s suffix : Py.endswith (s +:+ suffix) suffix = true.
Proof.
  unfold Py.endswith, String.rev.
  rewrite rev_app_app, (rev_app_acc suffix). apply startswith_app.
Qed.

Lemma raw_typed_insert_str r k s :
  raw_typed r → raw_typed (<[k := VStr s]> r).
Proof.
  intros Hr k' v. destruct (decide (k = k')) as [<-|Hne].
  - rewrite lookup_insert_eq. by intros [= <-].
  - rewrite lookup_insert_ne by done. apply Hr.
Qed.

Lemma fill_row_typed headers col_idx cells r :
  raw_typed r → raw_typed (fill_row headers col_idx cells r).
Proof.
  revert col_idx r. induction cells as [|c rest IH]; intros col_idx r Hr;
    simpl; [done|].
  apply IH. destruct (cell_links c) as [|l links].
  - by apply raw_typed_insert_str.
  - intros k' v. destruct (decide (header_at headers col_idx +:+ "_links" = k'))
      as [<-|Hne].
    + rewrite lookup_insert_eq. intros [= <-]. apply endswith_app.
    + rewrite lookup_insert_ne by done. by apply raw_typed_insert_str.
Qed.

Lemma raw_rows_typed page_num url headers row_idx rows :
  Forall raw_typed (raw_rows page_num url headers row_idx rows).
Proof.
  revert row_idx. induction rows as [|cells rest IH]; intros row_idx; simpl.
  - constructor.
  - destruct cells as [|c cells]; [apply IH|].
    constructor; [|apply IH].
    apply fill_row_typed. intros k v.
    destruct (decide (k = "source_url")) as [->|?];
      [rewrite lookup_insert_eq; by intros [= <-]|].
    rewrite lookup_insert_ne by done.
    destruct (decide (k = "row_index")) as [->|?];
      [rewrite lookup_insert_eq; intros [= <-]; by right|].
    rewrite lookup_insert_ne by done.
    destruct (decide (k = "page_number")) as [->|?];
      [rewrite lookup_insert_eq; intros [= <-]; by left|].
    by rewrite lookup_insert_ne, lookup_empty.
Qed.

(** The columns [is_grouping_row] reads are none of the exceptions, so
    it never raises on a raw record. *)
Lemma raw_typed_textual r : raw_typed r → grouping_fields_textual r.
Proof.
  intros Hr. unfold grouping_fields_textual.
  repeat apply Forall_cons_2; [..|apply Forall_nil_2]; unfold textual.
  all: match goal with |- context [?m !! ?k] =>
         destruct (m !! k) as [[]|] eqn:Hk; [done| |  |done];
         apply Hr in Hk; simpl in Hk
       end.
  all: try (destruct Hk; discriminate).
  all: by vm_compute in Hk.
Qed.

Lemma map_column_headers_textual (data : list record) :
  Forall grouping_fields_textual data →
  map_column_headers data
  = Some ((λ r, map_row column_mapping r ∅)
          <$> filter (λ r, 2 ≤ populated_count r)%nat data).
Proof.
  induction data as [|r rest IH]; intros Hdata; [done|].
  apply Forall_cons in Hdata as [Hr Hrest].
  cbn [map_column_headers].
  rewrite (is_grouping_row_populated r Hr), (IH Hrest).
  cbn [mbind option_bind]. rewrite filter_cons.
  destruct (decide (2 ≤ populated_count r)%nat) as [Hge|Hlt].
  - rewrite bool_decide_eq_false_2 by lia. by rewrite fmap_cons.
  - by rewrite bool_decide_eq_true_2 by lia.
Qed.

Lemma raw_rows_length page_num url headers row_idx rows :
  length (raw_rows page_num url headers row_idx rows)
  = length (filter (λ cells : row, cells ≠ []) rows).
Proof.
  revert row_idx. induction rows as [|cells rest IH]; intros row_idx; simpl;
    [done|].
  rewrite filter_cons. destruct cells as [|c cells].
  - rewrite decide_False by (by intros []). apply IH.
  - rewrite decide_True by done. simpl. by rewrite IH.
Qed.

Lemma filter_nonempty_all (rows : list row) :
  Forall (λ cells, cells ≠ []) rows →
  filter (λ cells : row, cells ≠ []) rows = rows.
Proof.
  induction 1 as [|cells rest Hc _ IH]; [done|].
  by rewrite filter_cons, decide_True, IH.
Qed.

End RawRowFacts.

(** ** Headers, keys and mapped fields *)

Section ExtractTableFacts.

Import Extract.

Implicit Types (r : record) (cells : row) (headers : list string).

Lemma extract_headers_imap cells acc :
  extract_headers cells acc
  = acc ++ imap (λ i c, header_name (length acc + i) c) cells.
Proof.
  revert acc. induction cells as [|c rest IH]; intros acc; simpl.
  - by rewrite app_nil_r.
  - rewrite IH, <- app_assoc. f_equal. simpl.
    unfold header_name at 2. rewrite Nat.add_0_r. f_equal.
    apply imap_ext. intros i c' _. simpl.
    rewrite length_app. simpl. f_equal. lia.
Qed.

Lemma extract_headers_lookup header_row i :
  extract_headers header_row [] !! i = header_name i <$> header_row !! i.
Proof. rewrite extract_headers_imap. simpl. apply list_lookup_imap. Qed.

Lemma fill_row_dom headers col_idx cells r :
  dom (fill_row headers col_idx cells r)
  = dom r ∪ list_to_set (row_keys_from headers col_idx cells).
Proof.
  revert col_idx r. induction cells as [|c rest IH]; intros col_idx r.
  - simpl. set_solver.
  - cbn [fill_row row_keys_from]. rewrite IH, list_to_set_app_L.
    generalize (list_to_set (C:=gset string)
                  (row_keys_from headers (S col_idx) rest)).
    intros X. unfold cell_keys.
    destruct (cell_links c); rewrite ?dom_insert_L; simpl; set_solver.
Qed.

Lemma raw_rows_keys page_num url headers row_idx rows :
  Forall2 (λ r cells,
             dom r = metadata_keys ∪ list_to_set (row_keys headers cells))
          (raw_rows page_num url headers row_idx rows)
          (filter (λ cells : row, cells ≠ []) rows).
Proof.
  revert row_idx. induction rows as [|cells rest IH]; intros row_idx; simpl.
  - constructor.
  - rewrite filter_cons. destruct cells as [|c cells].
    + rewrite decide_False by (by intros []). apply IH.
    + rewrite decide_True by done. constructor; [|apply IH].
      rewrite fill_row_dom, !dom_insert_L, dom_empty_L.
      unfold metadata_keys, row_keys.
      generalize (list_to_set (C:=gset string)
                    (row_keys_from headers 0 (c :: cells))).
      intros X. set_solver.
Qed.

Lemma map_row_other mapping r acc k :
  k ∉ mapping.*2 → map_row mapping r acc !! k = acc !! k.
Proof.
  revert acc. induction mapping as [|[old new] rest IH]; intros acc Hk;
    simpl; [done|].
  rewrite fmap_cons in Hk. apply not_elem_of_cons in Hk as [Hne Hk].
  destruct (r !! old); rewrite IH by done; [|done].
  by rewrite lookup_insert_ne.
Qed.

Lemma map_row_mapped mapping r acc old new :
  NoDup mapping.*2 → (old, new) ∈ mapping →
  map_row mapping r acc !! new
  = match r !! old with
    | Some v => Some (clean_value v)
    | None => acc !! new
    end.
Proof.
  revert acc. induction mapping as [|[old' new'] rest IH]; intros acc Hnd Hin.
  - by apply not_elem_of_nil in Hin.
  - rewrite fmap_cons in Hnd. apply NoDup_cons in Hnd as [Hnotin Hnd].
    apply elem_of_cons in Hin as [[= <- <-]|Hin]; simpl.
    + destruct (r !! old); rewrite map_row_other by done; [|done].
      by rewrite lookup_insert_eq.
    + assert (new ≠ new') as Hne.
      { intros ->. apply Hnotin.
        by apply (list_elem_of_fmap_2 snd _ (old, new')). }
      destruct (r !! old') as [v'|]; rewrite IH by done; [|done].
      destruct (r !! old); [done|]. by rewrite lookup_insert_ne.
Qed.

Lemma column_mapping_NoDup : NoDup column_mapping.*2.
Proof. apply (bool_decide_unpack _). by vm_compute. Qed.

Lemma map_row_keys r :
  dom (map_row column_mapping r ∅) ⊆ list_to_set mapped_names.
Proof.
  intros k [v Hk]%elem_of_dom. apply elem_of_list_to_set.
  destruct (decide (k ∈ mapped_names)) as [|Hnot]; [done|].
  by rewrite map_row_other, lookup_empty in Hk.
Qed.

End ExtractTableFacts.

(** ** More on de-duplication *)

Section DedupCounting.

Import Dedup.

Implicit Types (r : record) (seen : gset record) (data : list record).

Lemma remove_duplicates_loop_count seen unique_data n data :
  (length (remove_duplicates_loop seen unique_data n data).1
   + (remove_duplicates_loop seen unique_data n data).2
   = length unique_data + n + length data)%nat.
Proof.
  revert seen unique_data n.
  induction data as [|row rest IH]; intros seen unique_data n; simpl.
  - lia.
  - case_decide; rewrite IH; rewrite ?length_app; simpl; lia.
Qed.

Lemma links_equivalent r k v :
  Py.endswith k "_links" = true → equivalent r (<[k := v]> r).
Proof.
  intros Hk k' Hk'. apply same_trimmed_normalize.
  rewrite lookup_insert_ne; [done|]. congruence.
Qed.

End DedupCounting.

(** X1: the number of rows [remove_duplicates] keeps and the number it
    reports as removed add up to the number of rows it was given. *)
Theorem remove_duplicates_count (data : list record) :
  (length (Dedup.remove_duplicates data) + Dedup.duplicates_removed data
   = length data)%nat.
Proof.
  unfold Dedup.remove_duplicates, Dedup.duplicates_removed.
  rewrite remove_duplicates_loop_count. simpl. lia.
Qed.

(** X2: [remove_duplicates] loses no class of records and keeps no
    class twice: every input row is equivalent to a kept row, and two
    kept rows at different positions are never equivalent. *)
Theorem remove_duplicates_represents (data : list record) :
  (∀ r, r ∈ data →
        ∃ r', r' ∈ Dedup.remove_duplicates data ∧ Dedup.equivalent r' r)
  ∧ (∀ i j x y,
       Dedup.remove_duplicates data !! i = Some x →
       Dedup.remove_duplicates data !! j = Some y →
       Dedup.equivalent x y → i = j).
Proof.
  rewrite remove_duplicates_keep_new. split.
  - intros r Hin.
    destruct (keep_new_covers ∅ data r Hin) as [Hseen|(r' & Hr' & Hsig)].
    + by apply not_elem_of_empty in Hseen.
    + exists r'. split; [done|]. by apply product_signature_equivalent.
  - intros i j x y Hi Hj Heq%product_signature_equivalent.
    destruct (keep_new_fresh ∅ data) as [_ Hnodup].
    eapply NoDup_lookup; [exact Hnodup| |].
    + rewrite list_lookup_fmap, Hi. done.
    + rewrite list_lookup_fmap, Hj. simpl. by rewrite Heq.
Qed.

(** X3: link fields take no part in the comparison: a row that repeats
    an earlier row except for a field whose key ends in [_links] is
    removed as a duplicate. *)
Theorem remove_duplicates_ignores_links
    (pre post : list record) (r : record) (k : string) (v : value) :
  r ∈ pre → Py.endswith k "_links" = true →
  Dedup.remove_duplicates (pre ++ <[k := v]> r :: post)
  = Dedup.remove_duplicates (pre ++ post).
Proof.
  intros Hin Hk. rewrite !remove_duplicates_keep_new.
  eapply keep_new_drop_equivalent; [exact Hin|].
  by apply links_equivalent.
Qed.

Lemma remove_duplicates_ignores_links_witness :
  let r : record := {[ "Company_Product_Name" := VStr "Acme 5" ]} in
  let v := VLinks [Link "Acme 5" (Some "/p/1")] in
  r ∈ [r] ∧ Py.endswith "Company_Product_Name_links" "_links" = true
  ∧ Dedup.remove_duplicates
      ([r] ++ <["Company_Product_Name_links" := v]> r :: [])
    = Dedup.remove_duplicates ([r] ++ []).
Proof.
  intros r v.
  assert (r ∈ [r]) as Hin by (by left).
  assert (Py.endswith "Company_Product_Name_links" "_links" = true) as Hk
    by reflexivity.
  split; [exact Hin|]. split; [exact Hk|].
  exact (remove_duplicates_ignores_links [r] [] r
           "Company_Product_Name_links" v Hin Hk).
Defined.

(** ** Choosing the main table *)

Section TableChoice.

Import Extract.

Implicit Types (t : table) (tables : list table).

Lemma widest_table_spec tables : ∀ main_table max_columns,
  (widest_table tables main_table max_columns = (main_table, max_columns)
   ∧ ∀ t, t ∈ tables → wide_enough t → (columns_of t ≤ max_columns)%nat)
  ∨ (∃ t, widest_table tables main_table max_columns = (Some t, columns_of t)
          ∧ t ∈ tables ∧ wide_enough t ∧ (max_columns < columns_of t)%nat
          ∧ ∀ t', t' ∈ tables → wide_enough t' →
                  (columns_of t' ≤ columns_of t)%nat).
Proof.
  induction tables as [|t0 rest IH]; intros main_table max_columns.
  - left. split; [done|]. by intros t ?%not_elem_of_nil.
  - assert (∀ c,
      (∀ t, t ∈ rest → wide_enough t → (columns_of t ≤ c)%nat) →
      (wide_enough t0 → (columns_of t0 ≤ c)%nat) →
      ∀ t, t ∈ t0 :: rest → wide_enough t → (columns_of t ≤ c)%nat)
      as Hall.
    { intros c Hrest H0 t [->|Hin]%elem_of_cons; auto. }
    assert (∀ t, (∃ t1, t1 ∈ rest ∧ t = t1) → t ∈ t0 :: rest) as Hright.
    { intros t (t1 & Hin & ->). by right. }
    destruct t0 as [|first_row [|second rows]] eqn:Ht0.
    + (* no row *)
      destruct (IH main_table max_columns) as [[Heq Hle]|(t & Heq & Hin & Hw & Hlt & Hmax)].
      * left. split; [exact Heq|]. apply Hall; [done|].
        intros [Hlen _]. simpl in Hlen. lia.
      * right. exists t. split; [exact Heq|]. split; [by right|].
        split; [done|]. split; [done|]. apply Hall; [done|].
        intros [Hlen _]. simpl in Hlen. lia.
    + (* one row *)
      destruct (IH main_table max_columns) as [[Heq Hle]|(t & Heq & Hin & Hw & Hlt & Hmax)].
      * left. split; [exact Heq|]. apply Hall; [done|].
        intros [Hlen _]. simpl in Hlen. lia.
      * right. exists t. split; [exact Heq|]. split; [by right|].
        split; [done|]. split; [done|]. apply Hall; [done|].
        intros [Hlen _]. simpl in Hlen. lia.
    + (* at least two rows *)
      cbn [widest_table].
      destruct ((max_columns <? length first_row)%nat
                && (10 <=? length first_row)%nat) eqn:Hcond.
      * apply andb_prop in Hcond as [Hgt%Nat.ltb_lt Hten%Nat.leb_le].
        assert (wide_enough (first_row :: second :: rows)) as Hwide.
        { split; simpl; [lia|done]. }
        right.
        destruct (IH (Some (first_row :: second :: rows)) (length first_row))
          as [[Heq Hle]|(t & Heq & Hin & Hw & Hlt & Hmax)].
        -- exists (first_row :: second :: rows). split; [exact Heq|].
           split; [by left|]. split; [done|]. split; [done|].
           apply Hall; [done|]. done.
        -- exists t. split; [exact Heq|]. split; [by right|].
           split; [done|]. split; [unfold columns_of in *; simpl in *; lia|].
           apply Hall; [done|].
           intros _. unfold columns_of in *. simpl in *. lia.
      * assert (wide_enough (first_row :: second :: rows) →
                (columns_of (first_row :: second :: rows) ≤ max_columns)%nat)
          as Hnot.
        { intros [_ Hten].
          apply andb_false_iff in Hcond as [Hc%Nat.ltb_ge|Hc%Nat.leb_gt];
            unfold columns_of in *; simpl in *; lia. }
        destruct (IH main_table max_columns)
          as [[Heq Hle]|(t & Heq & Hin & Hw & Hlt & Hmax)].
        -- left. split; [exact Heq|]. by apply Hall.
        -- right. exists t. split; [exact Heq|]. split; [by right|].
           split; [done|]. split; [done|]. apply Hall; [done|].
           intros Hw0. specialize (Hnot Hw0). lia.
Qed.

Lemma longest_table_spec tables : ∀ main_table max_rows,
  (longest_table tables main_table max_rows = main_table
   ∧ ∀ t, t ∈ tables → (length t ≤ max_rows)%nat)
  ∨ (∃ t, longest_table tables main_table max_rows = Some t
          ∧ t ∈ tables ∧ (max_rows < length t)%nat
          ∧ ∀ t', t' ∈ tables → (length t' ≤ length t)%nat).
Proof.
  induction tables as [|t0 rest IH]; intros main_table max_rows.
  - left. split; [done|]. by intros t ?%not_elem_of_nil.
  - cbn [longest_table].
    destruct (Nat.ltb_spec max_rows (length t0)) as [Hlt|Hge].
    + right. destruct (IH (Some t0) (length t0))
        as [[Heq Hle]|(t & Heq & Hin & Hlt' & Hmax)].
      * exists t0. split; [exact Heq|]. split; [by left|]. split; [done|].
        intros t' [->|Hin]%elem_of_cons; auto.
      * exists t. split; [exact Heq|]. split; [by right|]. split; [lia|].
        intros t' [->|Hin']%elem_of_cons; [lia|auto].
    + destruct (IH main_table max_rows)
        as [[Heq Hle]|(t & Heq & Hin & Hlt' & Hmax)].
      * left. split; [exact Heq|].
        intros t' [->|Hin]%elem_of_cons; auto.
      * right. exists t. split; [exact Heq|]. split; [by right|].
        split; [done|]. intros t' [->|Hin']%elem_of_cons; [lia|auto].
Qed.

End TableChoice.

(** X4: the table [extract_table_data] works on.  It is one of the
    page's tables and has a row; when some table has at least two rows
    and at least ten header cells, the chosen one is such a table with
    the most header cells; otherwise it is a table with the most rows.
    No table is chosen only when no table has a row, and then the
    extractor returns the empty list. *)
Theorem select_main_table_choice (tables : list Extract.table) :
  match Extract.select_main_table tables with
  | Some t =>
      t ∈ tables ∧ t ≠ []
      ∧ ((Extract.wide_enough t
          ∧ ∀ t', t' ∈ tables → Extract.wide_enough t' →
                  (Extract.columns_of t' ≤ Extract.columns_of t)%nat)
         ∨ ((∀ t', t' ∈ tables → ¬ Extract.wide_enough t')
            ∧ ∀ t', t' ∈ tables → (length t' ≤ length t)%nat))
  | None =>
      Forall (λ t, t = []) tables
      ∧ ∀ page_num source_url,
          Extract.extract_table_data page_num source_url tables = []
  end.
Proof.
  unfold Extract.extract_table_data, Extract.select_main_table.
  destruct (widest_table_spec tables None 0%nat)
    as [[Heq Hle]|(t & Heq & Hin & Hw & Hlt & Hmax)].
  - rewrite Heq. simpl.
    assert (∀ t', t' ∈ tables → ¬ Extract.wide_enough t') as Hnone.
    { intros t' Hin Hw. specialize (Hle t' Hin Hw). destruct Hw. lia. }
    destruct (longest_table_spec tables None 0%nat)
      as [[Heq' Hle']|(t & Heq' & Hin & Hlt & Hmax)].
    + rewrite Heq'. split; [|done].
      apply Forall_forall. intros t Hin. specialize (Hle' t Hin).
      destruct t; [done|simpl in Hle'; lia].
    + rewrite Heq'. split; [done|]. split.
      * intros ->. simpl in Hlt. lia.
      * right. by split.
  - rewrite Heq. simpl. split; [done|]. split.
    + intros ->. destruct Hw as [Hlen _]. simpl in Hlen. lia.
    + left. by split.
Qed.

(** ** Rows of the main table *)

Section RowKeyFacts.

Import Extract.

Implicit Types (r : record) (cells : row) (headers : list string).

Lemma column_name_nonempty n : column_name n ≠ "".
Proof. done. Qed.

Lemma header_name_nonempty i c : header_name i c ≠ "".
Proof.
  unfold header_name. destruct (Py.truthy (cell_text c)) eqn:Ht.
  - by apply truthy_nonempty.
  - apply column_name_nonempty.
Qed.

Lemma row_keys_from_elem headers col_idx cells k :
  k ∈ row_keys_from headers col_idx cells →
  ∃ i, (col_idx ≤ i < col_idx + length cells)%nat
       ∧ (k = header_at headers i ∨ k = header_at headers i +:+ "_links").
Proof.
  revert col_idx. induction cells as [|c rest IH]; intros col_idx Hk.
  - by apply not_elem_of_nil in Hk.
  - cbn [row_keys_from] in Hk. apply elem_of_app in Hk as [Hk|Hk].
    + exists col_idx. split; [simpl; lia|]. unfold cell_keys in Hk.
      apply elem_of_cons in Hk as [->|Hk]; [by left|].
      destruct (cell_links c); [by apply not_elem_of_nil in Hk|].
      apply list_elem_of_singleton in Hk as ->. by right.
    + destruct (IH _ Hk) as (i & Hi & Hki). exists i. split; [simpl; lia|done].
Qed.

Lemma map_row_values r :
  raw_typed r →
  ∀ k v, map_row column_mapping r ∅ !! k = Some v → ∃ s, v = VStr s.
Proof.
  intros Hr k v Hk.
  destruct (decide (k ∈ mapped_names)) as [Hin|Hnot].
  - unfold mapped_names in Hin.
    apply list_elem_of_fmap in Hin as ([old new] & -> & Hin).
    rewrite (map_row_mapped _ _ _ old new column_mapping_NoDup Hin) in Hk.
    destruct (r !! old) as [w|] eqn:Hold; [|by rewrite lookup_empty in Hk].
    injection Hk as <-. pose proof (Hr old w Hold) as Hw.
    destruct w as [s| |]; simpl; [by eexists| |].
    + exfalso.
      assert (Forall (λ p : string * string,
                p.1 ≠ "page_number" ∧ p.1 ≠ "row_index") column_mapping)
        as Hall by (by repeat constructor).
      rewrite Forall_forall in Hall. destruct (Hall _ Hin) as [H1 H2].
      simpl in *. by destruct Hw.
    + exfalso.
      assert (Forall (λ p : string * string,
                Py.endswith p.1 "_links" = false) column_mapping)
        as Hall by (by repeat constructor).
      rewrite Forall_forall in Hall. specialize (Hall _ Hin).
      simpl in *. congruence.
  - by rewrite map_row_other, lookup_empty in Hk.
Qed.

End RowKeyFacts.

(** X5: the header names.  There is one per header cell; the name at
    0-based position [i] is the cell's text, or [Column_N] with
    [N = i + 1] when the text is blank; no name is empty. *)
Theorem extract_headers_names (header_row : Extract.row) :
  length (Extract.extract_headers header_row []) = length header_row
  ∧ (∀ i c, header_row !! i = Some c →
       Extract.extract_headers header_row [] !! i
       = Some (if Py.truthy (Extract.cell_text c) then Extract.cell_text c
               else "Column_" +:+ pretty (i + 1)%nat))
  ∧ Forall (λ h, h ≠ "") (Extract.extract_headers header_row []).
Proof.
  split; [|split].
  - rewrite extract_headers_imap. simpl. apply length_imap.
  - intros i c Hc. by rewrite extract_headers_lookup, Hc.
  - apply Forall_forall. intros h Hh.
    apply list_elem_of_lookup in Hh as [i Hi].
    rewrite extract_headers_lookup in Hi.
    destruct (header_row !! i) as [c|]; [|done].
    injection Hi as <-. apply header_name_nonempty.
Qed.

(** X6: the raw records of a table.  There is one per data row that
    has a cell (rows without cells are skipped), in row order, and the
    keys of each are [page_number], [row_index], [source_url], the
    header of each of its cells and, for a cell with anchors, that
    header followed by [_links]. *)
Theorem raw_rows_shape (page_num : Z) (source_url : string)
    (headers : list string) (rows : list Extract.row) :
  let raw := Extract.raw_rows page_num source_url headers 0 rows in
  let filled := filter (λ cells : Extract.row, cells ≠ []) rows in
  length raw = length filled
  ∧ (length raw ≤ length rows)%nat
  ∧ Forall2 (λ (r : record) cells,
       dom r = {[ "page_number"; "row_index"; "source_url" ]}
               ∪ list_to_set (Extract.row_keys headers cells))
     raw filled.
Proof.
  intros raw filled. split; [|split].
  - apply raw_rows_length.
  - unfold raw. rewrite raw_rows_length. apply length_filter.
  - apply raw_rows_keys.
Qed.

Lemma extract_table_data_eq (page_num : Z) (source_url : string)
    (tables : list Extract.table) (header_row : Extract.row)
    (data_rows : list Extract.row) :
  Extract.select_main_table tables = Some (header_row :: data_rows) →
  Extract.map_column_headers
    (Extract.raw_rows page_num source_url
       (Extract.extract_headers header_row []) 0 data_rows)
  = Some (Extract.extract_table_data page_num source_url tables)
  ∧ Extract.extract_table_data page_num source_url tables
    = (λ r, Extract.map_row Extract.column_mapping r ∅)
      <$> filter (λ r, 2 ≤ Extract.populated_count r)%nat
            (Extract.raw_rows page_num source_url
               (Extract.extract_headers header_row []) 0 data_rows).
Proof.
  intros Hsel.
  set (raw := Extract.raw_rows page_num source_url
                (Extract.extract_headers header_row []) 0 data_rows).
  assert (Extract.map_column_headers raw
          = Some ((λ r, Extract.map_row Extract.column_mapping r ∅)
                  <$> filter (λ r, 2 ≤ Extract.populated_count r)%nat raw))
    as Hmap.
  { apply map_column_headers_textual.
    eapply Forall_impl; [apply raw_rows_typed|]. apply raw_typed_textual. }
  assert (Extract.extract_table_data page_num source_url tables
          = (λ r, Extract.map_row Extract.column_mapping r ∅)
            <$> filter (λ r, 2 ≤ Extract.populated_count r)%nat raw) as Hout.
  { unfold Extract.extract_table_data. rewrite Hsel.
    fold raw. by rewrite Hmap. }
  split; [by rewrite Hout|exact Hout].
Qed.

(** X7: on the rows it builds itself [is_grouping_row] never raises,
    so the [except] clause of [extract_table_data] is not reached
    through it: the result is the raw records with at least two
    populated key columns, each mapped, in row order, and there are at
    most as many as the table has data rows. *)
Theorem extract_table_data_rows (page_num : Z) (source_url : string)
    (tables : list Extract.table) (header_row : Extract.row)
    (data_rows : list Extract.row) :
  Extract.select_main_table tables = Some (header_row :: data_rows) →
  let raw := Extract.raw_rows page_num source_url
               (Extract.extract_headers header_row []) 0 data_rows in
  Extract.map_column_headers raw
  = Some (Extract.extract_table_data page_num source_url tables)
  ∧ Extract.extract_table_data page_num source_url tables
    = (λ r, Extract.map_row Extract.column_mapping r ∅)
      <$> filter (λ r, 2 ≤ Extract.populated_count r)%nat raw
  ∧ (length (Extract.extract_table_data page_num source_url tables)
     ≤ length data_rows)%nat.
Proof.
  intros Hsel raw.
  destruct (extract_table_data_eq page_num source_url tables header_row
              data_rows Hsel) as [Hmap Hout].
  split; [exact Hmap|]. split; [exact Hout|].
  rewrite Hout, length_fmap.
  etrans; [apply length_filter|].
  rewrite raw_rows_length. apply length_filter.
Qed.

Lemma extract_table_data_rows_witness :
  let blank := Extract.Cell "" [] in
  let text s := Extract.Cell s [] in
  let header_row := replicate 14 blank in
  let data_rows :=
    [ [text "3 Year"];
      [blank; text "Acme MYGA 3"; text "A+"; text "85"; text "10,000";
       text "3"; text "10%"; text "1/1"; text "0"; text "4.25"] ] in
  Extract.select_main_table [header_row :: data_rows]
    = Some (header_row :: data_rows)
  ∧ (length (Extract.extract_table_data 1 "u" [header_row :: data_rows])
     ≤ length data_rows)%nat.
Proof.
  intros blank text header_row data_rows.
  assert (Extract.select_main_table [header_row :: data_rows]
          = Some (header_row :: data_rows)) as Hsel by reflexivity.
  split; [exact Hsel|].
  exact (proj2 (proj2 (extract_table_data_rows 1 "u"
                         [header_row :: data_rows] header_row data_rows Hsel))).
Defined.

(** X8: what a mapped record holds.  Under each of the thirteen mapped
    names it has the tidied value of the matching [Column_N] of the raw
    record, when that column is present, and it has no other key: the
    metadata, [Column_1], the link lists and any other column are
    dropped.  Built from a raw record of the extractor, all its values
    are text. *)
Theorem map_row_fields (r : record) :
  (∀ old new, (old, new) ∈ Extract.column_mapping →
      Extract.map_row Extract.column_mapping r ∅ !! new
      = Extract.clean_value <$> r !! old)
  ∧ (∀ k, k ∉ Extract.column_mapping.*2 →
      Extract.map_row Extract.column_mapping r ∅ !! k = None)
  ∧ (Extract.raw_typed r →
     ∀ k v, Extract.map_row Extract.column_mapping r ∅ !! k = Some v →
            ∃ s, v = VStr s).
Proof.
  split; [|split].
  - intros old new Hin.
    rewrite (map_row_mapped _ _ _ old new column_mapping_NoDup Hin).
    destruct (r !! old); [done|]. by rewrite lookup_empty.
  - intros k Hk. by rewrite map_row_other, lookup_empty.
  - apply map_row_values.
Qed.

Section NamedHeaders.

Import Extract.

Lemma filter_none {A} (P : A → Prop) `{!∀ x, Decision (P x)} (l : list A) :
  Forall (λ x, ¬ P x) l → filter P l = [].
Proof.
  induction 1 as [|x l Hx _ IH]; [done|].
  by rewrite filter_cons, decide_False.
Qed.

Lemma required_fields_plain :
  Forall (λ f, (f ∉ metadata_keys) ∧ (Py.endswith f "_links" = false))
         required_fields.
Proof.
  repeat constructor; try done;
    apply (bool_decide_unpack _); by vm_compute.
Qed.

Lemma unpopulated_count r :
  (∀ f, f ∈ required_fields → r !! f = None) → populated_count r = 0%nat.
Proof.
  intros Hnone. unfold populated_count.
  rewrite filter_none; [done|].
  apply Forall_forall. intros f Hf. unfold populated.
  rewrite (Hnone f Hf). tauto.
Qed.

End NamedHeaders.

(** X9: a table whose header cells all carry a text of their own
    yields nothing.  When no header cell is blank or named like one of
    the key columns [Column_2], [Column_3], [Column_4], [Column_10],
    and no data row has more cells than the header, every row is
    taken for a grouping row and [extract_table_data] returns the
    empty list. *)
Theorem extract_named_headers_empty (page_num : Z) (source_url : string)
    (tables : list Extract.table) (header_row : Extract.row)
    (data_rows : list Extract.row) :
  Extract.select_main_table tables = Some (header_row :: data_rows) →
  Forall (λ c, Extract.cell_text c ≠ ""
               ∧ Extract.cell_text c ∉ Extract.required_fields) header_row →
  Forall (λ cells : Extract.row, (length cells ≤ length header_row)%nat)
         data_rows →
  Extract.extract_table_data page_num source_url tables = [].
Proof.
  intros Hsel Hnamed Hshort.
  destruct (extract_table_data_eq page_num source_url tables header_row
              data_rows Hsel) as [_ ->].
  rewrite filter_none; [done|].
  apply Forall_forall. intros r Hr.
  rewrite unpopulated_count; [lia|].
  intros f Hf.
  pose proof required_fields_plain as Hplain.
  rewrite Forall_forall in Hplain. destruct (Hplain f Hf) as [Hmeta Hlinks].
  apply list_elem_of_lookup in Hr as [n Hn].
  destruct (Forall2_lookup_l _ _ _ _ _
              (raw_rows_keys page_num source_url
                 (Extract.extract_headers header_row []) 0 data_rows) Hn)
    as (cells & Hcells & Hdom).
  apply not_elem_of_dom. rewrite Hdom. intros [Hin|Hin]%elem_of_union.
  { by apply Hmeta. }
  apply elem_of_list_to_set in Hin. unfold Extract.row_keys in Hin.
  apply row_keys_from_elem in Hin as (i & Hi & Hkey).
  assert (cells ∈ data_rows) as Hcin.
  { eapply list_elem_of_filter. eapply list_elem_of_lookup_2. exact Hcells. }
  rewrite Forall_forall in Hshort. specialize (Hshort cells Hcin).
  destruct (lookup_lt_is_Some_2 header_row i) as [c Hc]; [lia|].
  assert (Extract.header_at (Extract.extract_headers header_row []) i
          = Extract.cell_text c) as Hat.
  { unfold Extract.header_at. rewrite extract_headers_lookup, Hc. simpl.
    unfold Extract.header_name.
    rewrite Forall_forall in Hnamed.
    destruct (Hnamed c) as [Hne _]; [by eapply list_elem_of_lookup_2|].
    by rewrite (proj2 (truthy_nonempty _) Hne). }
  rewrite Hat in Hkey. destruct Hkey as [->| ->].
  - rewrite Forall_forall in Hnamed.
    destruct (Hnamed c) as [_ Hnot]; [by eapply list_elem_of_lookup_2|].
    by apply Hnot.
  - by rewrite endswith_app in Hlinks.
Qed.

Lemma extract_named_headers_empty_witness :
  let text s := Extract.Cell s [] in
  let header_row := [text "Company"; text "Rate"] in
  let data_rows := [[text "Acme"; text "4.25"]; [text "Beta"; text "5.00"]] in
  Extract.select_main_table [header_row :: data_rows]
    = Some (header_row :: data_rows)
  ∧ Forall (λ c, Extract.cell_text c ≠ ""
                 ∧ Extract.cell_text c ∉ Extract.required_fields) header_row
  ∧ Forall (λ cells : Extract.row, (length cells ≤ length header_row)%nat)
           data_rows
  ∧ Extract.extract_table_data 1 "u" [header_row :: data_rows] = [].
Proof.
  intros text header_row data_rows.
  assert (Extract.select_main_table [header_row :: data_rows]
          = Some (header_row :: data_rows)) as Hsel by reflexivity.
  assert (Forall (λ c, Extract.cell_text c ≠ ""
                       ∧ Extract.cell_text c ∉ Extract.required_fields)
                 header_row) as Hnamed.
  { repeat constructor; try done;
      apply (bool_decide_unpack _); by vm_compute. }
  assert (Forall (λ cells : Extract.row,
                    (length cells ≤ length header_row)%nat) data_rows)
    as Hshort.
  { repeat constructor. }
  split; [exact Hsel|]. split; [exact Hnamed|]. split; [exact Hshort|].
  exact (extract_named_headers_empty 1 "u" [header_row :: data_rows]
           header_row data_rows Hsel Hnamed Hshort).
Defined.

(** ** Page signatures *)

Section SignatureFacts.

Import Crawl.

Variable py_str : value → string.

Implicit Types (r : record) (page_data : list record).

Lemma truthy_app s1 s2 : Py.truthy (s1 +:+ s2) = Py.truthy s1 || Py.truthy s2.
Proof. by destruct s1. Qed.

Lemma product_entry_truthy r : Py.truthy (product_entry py_str r) = true.
Proof.
  unfold product_entry. rewrite !truthy_app. simpl. apply orb_true_r.
Qed.

Lemma join_truthy sep p parts :
  Py.truthy p = true → Py.truthy (Py.join sep (p :: parts)) = true.
Proof.
  intros Hp. destruct parts as [|q parts]; simpl; [done|].
  by rewrite truthy_app, Hp.
Qed.

Lemma create_page_signature_sample page_data :
  page_data ≠ [] →
  create_page_signature py_str page_data
  = Py.join "|"
      (product_entry py_str
       <$> (take 3 page_data
            ++ if (6 <? length page_data)%nat
               then drop (length page_data - 3) page_data else [])).
Proof.
  intros Hne. unfold create_page_signature.
  destruct page_data as [|r rest]; [done|].
  set (l := r :: rest). f_equal. f_equal. f_equal.
  - destruct (Nat.min_spec 3 (length l)) as [[_ ->]|[Hle ->]]; [done|].
    by rewrite !take_ge by lia.
  - destruct (Nat.ltb_spec 6 (length l)); [|done].
    f_equal. lia.
Qed.

End SignatureFacts.

Lemma create_page_signature_truthy (py_str : value → string)
    (page_data : list record) :
  page_data ≠ [] →
  Py.truthy (Crawl.create_page_signature py_str page_data) = true.
Proof.
  intros Hne. rewrite create_page_signature_sample by done.
  destruct page_data as [|r rest]; [done|].
  cbn [take app fmap list_fmap]. apply join_truthy, product_entry_truthy.
Qed.

Lemma same_as_last_self (py_str : value → string) (page_data : list record) :
  page_data ≠ [] →
  Crawl.same_as_last
    (Some (Crawl.create_page_signature py_str page_data))
    (Crawl.create_page_signature py_str page_data) = true.
Proof.
  intros Hne. unfold Crawl.same_as_last.
  by rewrite create_page_signature_truthy, String.eqb_refl.
Qed.

(** X10: the signature of a page with at least one record is never the
    empty string, so the truth test on [last_page_data_signature]
    never hides a repeat: a page compared with its own signature is
    always recognised as identical. *)
Theorem create_page_signature_nonempty (py_str : value → string)
    (page_data : list record) :
  page_data ≠ [] →
  Crawl.create_page_signature py_str page_data ≠ ""
  ∧ Crawl.same_as_last
      (Some (Crawl.create_page_signature py_str page_data))
      (Crawl.create_page_signature py_str page_data) = true.
Proof.
  intros Hne. split.
  - by apply truthy_nonempty, create_page_signature_truthy.
  - by apply same_as_last_self.
Qed.

Lemma create_page_signature_nonempty_witness :
  let r : record := {[ "Company_Product_Name" := VStr "Acme 5";
                       "Current_Rate" := VStr "4.25" ]} in
  [r] ≠ []
  ∧ Crawl.create_page_signature (λ _, "") [r] ≠ "".
Proof.
  intros r. assert ([r] ≠ []) as Hne by discriminate.
  split; [exact Hne|].
  exact (proj1 (create_page_signature_nonempty (λ _, "") [r] Hne)).
Defined.

(** X11: the signature is a sample.  On a page of at most six records
    only the first three count; on a longer page only the first three
    and the last three: pages that agree there have the same
    signature whatever else they hold. *)
Theorem create_page_signature_sampling (py_str : value → string)
    (first middle middle' last : list record) :
  length first = 3%nat →
  ((length middle ≤ 3)%nat → (length middle' ≤ 3)%nat →
   Crawl.create_page_signature py_str (first ++ middle)
   = Crawl.create_page_signature py_str (first ++ middle'))
  ∧ (length last = 3%nat → middle ≠ [] → middle' ≠ [] →
     Crawl.create_page_signature py_str (first ++ middle ++ last)
     = Crawl.create_page_signature py_str (first ++ middle' ++ last)).
Proof.
  intros Hfirst.
  assert (∀ l : list record, first ++ l ≠ []) as Hne.
  { intros l. destruct first; [done|discriminate]. }
  assert (∀ l : list record, take 3 (first ++ l) = first) as Htake.
  { intros l. rewrite <- Hfirst. apply take_app_length. }
  split.
  - intros Hm Hm'. rewrite !create_page_signature_sample by done.
    rewrite !Htake, !length_app, Hfirst.
    destruct (Nat.ltb_spec 6 (3 + length middle)); [lia|].
    destruct (Nat.ltb_spec 6 (3 + length middle')); [lia|]. done.
  - intros Hlast Hmid Hmid'. rewrite !create_page_signature_sample by done.
    rewrite !Htake.
    assert (∀ m : list record, m ≠ [] →
      (if (6 <? length (first ++ m ++ last))%nat
       then drop (length (first ++ m ++ last) - 3) (first ++ m ++ last)
       else []) = last) as Hdrop.
    { intros m Hm. rewrite !length_app, Hfirst, Hlast.
      assert (0 < length m)%nat by (destruct m; [done|simpl; lia]).
      destruct (Nat.ltb_spec 6 (3 + (length m + 3))); [|lia].
      rewrite (app_assoc first m last).
      replace (3 + (length m + 3) - 3)%nat with (length (first ++ m))
        by (rewrite length_app; lia).
      apply drop_app_length. }
    by rewrite !Hdrop.
Qed.

Lemma create_page_signature_sampling_witness :
  let r (name : string) : record :=
    {[ "Company_Product_Name" := VStr name; "Current_Rate" := VStr "4.25" ]} in
  let first := [r "A"; r "B"; r "C"] in
  length first = 3%nat
  ∧ Crawl.create_page_signature (λ _, "") (first ++ [r "D"])
    = Crawl.create_page_signature (λ _, "") (first ++ [r "E"; r "F"]).
Proof.
  intros r first. assert (length first = 3%nat) as Hfirst by reflexivity.
  split; [exact Hfirst|].
  apply (proj1 (create_page_signature_sampling (λ _, "") first
                  [r "D"] [r "E"; r "F"] [] Hfirst)); simpl; lia.
Defined.

(** ** The pagination loop *)

Section LoopFacts.

Import Crawl.

Variable py_str : value → string.

Implicit Types (st : state) (o : page_outcome) (max_pages : option Z)
  (pages : Z → page_outcome).

Lemma iteration_continue max_pages st o st' :
  iteration py_str max_pages st o = Continue st' →
  page_num st' = page_num st + 1
  ∧ (consecutive_empty_pages st' ≤ 2)%nat
  ∧ limit_reached max_pages (page_num st) = false ∨
    (page_num st' = page_num st + 1
     ∧ (consecutive_empty_pages st' ≤ 2)%nat ∧ o = Raised).
Proof.
  unfold iteration, next_page. destruct o as [[|r page_data]|]; cbv beta iota zeta.
  - cbn [consecutive_empty_pages page_num].
    destruct (Nat.leb_spec 3 (S (consecutive_empty_pages st))); [done|].
    destruct (limit_reached max_pages (page_num st)); [done|].
    intros [= <-]. left. cbn. split; [done|]. split; [lia|done].
  - destruct (same_as_last _ _); [done|]. cbn [page_num].
    destruct (limit_reached max_pages (page_num st)); [done|].
    intros [= <-]. left. cbn. split; [done|]. split; [lia|done].
  - cbn [consecutive_empty_pages page_num all_data last_page_data_signature].
    destruct (Nat.leb_spec 3 (S (consecutive_empty_pages st))); [done|].
    intros [= <-]. right. cbn. split; [done|]. split; [lia|done].
Qed.

Lemma iteration_continue_step max_pages st o st' :
  iteration py_str max_pages st o = Continue st' →
  page_num st' = page_num st + 1 ∧ (consecutive_empty_pages st' ≤ 2)%nat.
Proof.
  intros [(? & ? & _)|(? & ? & _)]%iteration_continue; by split.
Qed.

Lemma iteration_break_page max_pages st o st' :
  iteration py_str max_pages st o = Break st' → page_num st' = page_num st.
Proof.
  unfold iteration, next_page. destruct o as [[|r page_data]|]; cbv beta iota zeta.
  - cbn [consecutive_empty_pages page_num].
    destruct (3 <=? S (consecutive_empty_pages st))%nat;
      [by intros [= <-]|].
    destruct (limit_reached max_pages (page_num st)); [|done].
    by intros [= <-].
  - destruct (same_as_last _ _); [by intros [= <-]|]. cbn [page_num].
    destruct (limit_reached max_pages (page_num st)); [|done].
    by intros [= <-].
  - cbn [consecutive_empty_pages page_num all_data last_page_data_signature].
    destruct (3 <=? S (consecutive_empty_pages st))%nat; [|done].
    by intros [= <-].
Qed.

Lemma iteration_zero st o :
  iteration py_str (Some 0) st o = iteration py_str None st o.
Proof. done. Qed.

(** At or past a limit that is set, a page that is returned always
    ends the loop. *)
Lemma iteration_at_limit max_pages st page_data :
  limit_reached max_pages (page_num st) = true →
  ∃ st', iteration py_str max_pages st (Returned page_data) = Break st'.
Proof.
  intros Hlim. unfold iteration, next_page.
  destruct page_data as [|r page_data]; cbv beta iota zeta.
  - cbn [consecutive_empty_pages page_num].
    destruct (3 <=? S (consecutive_empty_pages st))%nat; [by eexists|].
    rewrite Hlim. by eexists.
  - destruct (same_as_last _ _); [by eexists|]. cbn [page_num].
    rewrite Hlim. by eexists.
Qed.

Lemma limit_reached_mono m p q :
  limit_reached (Some m) p = true → p ≤ q → limit_reached (Some m) q = true.
Proof.
  unfold limit_reached. intros [Hm Hp%Z.leb_le]%andb_prop Hq.
  rewrite Hm. simpl. apply Z.leb_le. lia.
Qed.

Lemma loop_at_limit pages m : ∀ k st,
  limit_reached (Some m) (page_num st) = true →
  (consecutive_empty_pages st ≤ 2)%nat →
  (3 - consecutive_empty_pages st ≤ k)%nat →
  ∃ fuel st', (fuel ≤ k)%nat
    ∧ scrape_loop py_str fuel pages (Some m) st = Some st'.
Proof.
  induction k as [|k IH]; intros st Hlim Hc Hk; [lia|].
  destruct (pages (page_num st)) as [page_data|] eqn:Hpage.
  - destruct (iteration_at_limit (Some m) st page_data Hlim) as [st' Hst'].
    exists 1%nat, st'. split; [lia|]. simpl. by rewrite Hpage, Hst'.
  - destruct (iteration py_str (Some m) st Raised) as [st'|st'] eqn:Hit.
    + pose proof (iteration_continue_step _ _ _ _ Hit) as [Hp Hc'].
      assert (consecutive_empty_pages st'
              = S (consecutive_empty_pages st)) as Hcnt.
      { unfold iteration in Hit.
        cbn [consecutive_empty_pages page_num all_data
             last_page_data_signature] in Hit.
        destruct (3 <=? S (consecutive_empty_pages st))%nat; [done|].
        by injection Hit as <-. }
      destruct (IH st') as (fuel & st'' & Hfuel & Hloop).
      * eapply limit_reached_mono; [exact Hlim|lia].
      * done.
      * lia.
      * exists (S fuel), st''. split; [lia|]. simpl. by rewrite Hpage, Hit.
    + exists 1%nat, st'. split; [lia|]. simpl. by rewrite Hpage, Hit.
Qed.

Lemma loop_below_limit pages m : m ≠ 0 → ∀ d st,
  (consecutive_empty_pages st ≤ 2)%nat →
  Z.max m 1 - page_num st ≤ Z.of_nat d →
  ∃ fuel st', (fuel ≤ d + 3)%nat
    ∧ scrape_loop py_str fuel pages (Some m) st = Some st'.
Proof.
  intros Hm. induction d as [|d IH]; intros st Hc Hd.
  - apply loop_at_limit; [|done|lia].
    unfold limit_reached. apply andb_true_intro. split.
    + apply negb_true_iff, Z.eqb_neq. done.
    + apply Z.leb_le. lia.
  - destruct (iteration py_str (Some m) st (pages (page_num st)))
      as [st'|st'] eqn:Hit.
    + pose proof (iteration_continue_step _ _ _ _ Hit) as [Hp Hc'].
      destruct (IH st') as (fuel & st'' & Hfuel & Hloop); [done|lia|].
      exists (S fuel), st''. split; [lia|]. simpl. by rewrite Hit.
    + exists 1%nat, st'. split; [lia|]. simpl. by rewrite Hit.
Qed.

Lemma loop_page_bound pages m : m ≠ 0 →
  (∀ n, pages n ≠ Raised) →
  ∀ fuel st st',
    page_num st ≤ Z.max m 1 →
    scrape_loop py_str fuel pages (Some m) st = Some st' →
    page_num st' ≤ Z.max m 1.
Proof.
  intros Hm Hpages. induction fuel as [|fuel IH]; intros st st' Hp; [done|].
  simpl.
  destruct (iteration py_str (Some m) st (pages (page_num st)))
    as [st1|st1] eqn:Hit.
  - intros Hloop. apply (IH st1); [|done].
    apply iteration_continue in Hit as [(Hp1 & _ & Hlim)|(_ & _ & Hr)];
      [|by destruct (Hpages (page_num st))].
    unfold limit_reached in Hlim.
    apply andb_false_iff in Hlim as [Hz|Hlt%Z.leb_gt].
    + apply negb_false_iff, Z.eqb_eq in Hz. done.
    + lia.
  - intros [= <-]. by rewrite (iteration_break_page _ _ _ _ Hit).
Qed.

End LoopFacts.

Lemma scrape_loop_zero (py_str : value → string) (fuel : nat)
    (pages : Z → Crawl.page_outcome) (st : Crawl.state) :
  Crawl.scrape_loop py_str fuel pages (Some 0) st
  = Crawl.scrape_loop py_str fuel pages None st.
Proof.
  revert st. induction fuel as [|fuel' IH]; intros st; [done|].
  simpl. rewrite iteration_zero.
  destruct (Crawl.iteration py_str None st _); [apply IH|done].
Qed.

(** X12: [max_pages = 0] is no limit at all: the loop behaves exactly
    as with [max_pages = None]. *)
Theorem max_pages_zero_is_unlimited (py_str : value → string) (fuel : nat)
    (pages : Z → Crawl.page_outcome) :
  (∀ st, Crawl.scrape_loop py_str fuel pages (Some 0) st
         = Crawl.scrape_loop py_str fuel pages None st)
  ∧ Crawl.scrape_all_pages py_str fuel pages (Some 0)
    = Crawl.scrape_all_pages py_str fuel pages None.
Proof.
  split; [apply scrape_loop_zero|].
  unfold Crawl.scrape_all_pages. by rewrite scrape_loop_zero.
Qed.

(** X13: with a limit other than [0] the loop always returns, after at
    most [max(max_pages, 1) + 2] iterations; and when no page request
    raises, the last page requested is at most page
    [max(max_pages, 1)]. *)
Theorem scrape_loop_limited (py_str : value → string)
    (pages : Z → Crawl.page_outcome) (max_pages : Z) :
  max_pages ≠ 0 →
  (∃ fuel st, (fuel ≤ Z.to_nat (Z.max max_pages 1) + 2)%nat
     ∧ Crawl.scrape_loop py_str fuel pages (Some max_pages)
         Crawl.initial_state = Some st)
  ∧ ((∀ n, pages n ≠ Crawl.Raised) →
     ∀ fuel st,
       Crawl.scrape_loop py_str fuel pages (Some max_pages)
         Crawl.initial_state = Some st →
       Crawl.page_num st ≤ Z.max max_pages 1).
Proof.
  intros Hm. split.
  - destruct (loop_below_limit py_str pages max_pages Hm
                (Z.to_nat (Z.max max_pages 1 - 1)) Crawl.initial_state)
      as (fuel & st & Hfuel & Hloop).
    + simpl. lia.
    + simpl. lia.
    + exists fuel, st. split; [lia|done].
  - intros Hpages fuel st.
    apply (loop_page_bound py_str pages max_pages Hm Hpages). simpl. lia.
Qed.

Lemma scrape_loop_limited_witness :
  let r : record := {[ "Company_Product_Name" := VStr "Acme 5";
                       "Current_Rate" := VStr "4.25" ]} in
  let pages (n : Z) := if (n =? 2) then Crawl.Raised else Crawl.Returned [r] in
  (3 : Z) ≠ 0
  ∧ ∃ fuel st, (fuel ≤ Z.to_nat (Z.max 3 1) + 2)%nat
      ∧ Crawl.scrape_loop (λ _, "") fuel pages (Some 3)
          Crawl.initial_state = Some st.
Proof.
  intros r pages. assert ((3 : Z) ≠ 0) as Hm by lia.
  split; [exact Hm|].
  exact (proj1 (scrape_loop_limited (λ _, "") pages 3 Hm)).
Defined.

Section LoopRuns.

Import Crawl.

Variable py_str : value → string.

Implicit Types (st : state) (o : page_outcome) (max_pages : option Z)
  (pages : Z → page_outcome).

Lemma iteration_fruitless max_pages st o :
  fruitless o →
  (∃ st', iteration py_str max_pages st o = Break st')
  ∨ (∃ st', iteration py_str max_pages st o = Continue st'
            ∧ consecutive_empty_pages st' = S (consecutive_empty_pages st)).
Proof.
  unfold iteration, next_page. destruct o as [[|r page_data]|]; [| done |];
    intros _; cbv beta iota zeta;
    cbn [consecutive_empty_pages page_num all_data last_page_data_signature];
    destruct (3 <=? S (consecutive_empty_pages st))%nat; try (left; by eexists).
  - destruct (limit_reached max_pages (page_num st)); [left; by eexists|].
    right. by eexists.
  - right. by eexists.
Qed.

Lemma loop_fruitless_run pages max_pages : ∀ j st,
  (∀ i, 0 ≤ i < Z.of_nat j → fruitless (pages (page_num st + i))) →
  (consecutive_empty_pages st ≤ 2)%nat →
  (3 ≤ consecutive_empty_pages st + j)%nat →
  ∃ fuel st', (fuel ≤ j)%nat
    ∧ scrape_loop py_str fuel pages max_pages st = Some st'
    ∧ page_num st' < page_num st + Z.of_nat j.
Proof.
  induction j as [|j IH]; intros st Hfr Hc Hj; [lia|].
  assert (fruitless (pages (page_num st))) as H0.
  { rewrite <- (Z.add_0_r (page_num st)). apply Hfr. lia. }
  destruct (iteration_fruitless max_pages st _ H0)
    as [[st' Hit]|(st' & Hit & Hcnt)].
  - exists 1%nat, st'. split; [lia|]. split.
    + simpl. by rewrite Hit.
    + rewrite (iteration_break_page _ _ _ _ _ Hit). lia.
  - pose proof (iteration_continue_step _ _ _ _ _ Hit) as [Hp Hc'].
    destruct (IH st') as (fuel & st'' & Hfuel & Hloop & Hpage).
    + intros i Hi. rewrite Hp.
      replace (page_num st + 1 + i) with (page_num st + (i + 1)) by lia.
      apply Hfr. lia.
    + done.
    + lia.
    + exists (S fuel), st''. split; [lia|]. split.
      * simpl. by rewrite Hit.
      * lia.
Qed.

Lemma loop_reaches_fruitless pages max_pages k : ∀ d st,
  (∀ i, 0 ≤ i < 3 → fruitless (pages (k + i))) →
  (consecutive_empty_pages st ≤ 2)%nat →
  page_num st + Z.of_nat d = k →
  ∃ fuel st', (fuel ≤ d + 3)%nat
    ∧ scrape_loop py_str fuel pages max_pages st = Some st'
    ∧ page_num st' ≤ k + 2.
Proof.
  induction d as [|d IH]; intros st Hfr Hc Hk.
  - destruct (loop_fruitless_run pages max_pages 3 st)
      as (fuel & st' & Hfuel & Hloop & Hpage).
    + intros i Hi. replace (page_num st) with k by lia. by apply Hfr.
    + done.
    + lia.
    + exists fuel, st'. split; [lia|]. split; [done|lia].
  - destruct (iteration py_str max_pages st (pages (page_num st)))
      as [st'|st'] eqn:Hit.
    + pose proof (iteration_continue_step _ _ _ _ _ Hit) as [Hp Hc'].
      destruct (IH st') as (fuel & st'' & Hfuel & Hloop & Hpage);
        [done|done|lia|].
      exists (S fuel), st''. split; [lia|]. split; [|done].
      simpl. by rewrite Hit.
    + exists 1%nat, st'. split; [lia|]. split.
      * simpl. by rewrite Hit.
      * rewrite (iteration_break_page _ _ _ _ _ Hit). lia.
Qed.

Lemma state_after_invariant pages max_pages : ∀ n st,
  state_after py_str n pages max_pages = Some st →
  page_num st = Z.of_nat n + 1
  ∧ (consecutive_empty_pages st ≤ 2)%nat
  ∧ all_data st = collected n pages
  ∧ last_page_data_signature st = most_recent_signature py_str n pages.
Proof.
  induction n as [|n IH]; intros st.
  - intros [= <-]. simpl. repeat split; lia.
  - cbn [state_after].
    destruct (state_after py_str n pages max_pages) as [st0|]; [|done].
    destruct (IH st0 eq_refl) as (Hp & Hc & Hdata & Hlast).
    cbn [mbind option_bind].
    destruct (iteration py_str max_pages st0 (pages (page_num st0)))
      as [st'|] eqn:Hit; [|done].
    intros [= <-].
    pose proof (iteration_continue_step _ _ _ _ _ Hit) as [Hp' Hc'].
    split; [lia|]. split; [done|].
    cbn [collected most_recent_signature].
    replace (Z.of_nat (S n)) with (page_num st0) by lia.
    unfold iteration, next_page in Hit.
    destruct (pages (page_num st0)) as [[|r page_data]|];
      cbv beta iota zeta in Hit;
      cbn [consecutive_empty_pages page_num all_data
           last_page_data_signature] in Hit.
    + destruct (3 <=? S (consecutive_empty_pages st0))%nat; [done|].
      destruct (limit_reached max_pages (page_num st0)); [done|].
      injection Hit as <-. cbn. by rewrite app_nil_r.
    + destruct (same_as_last _ _); [done|].
      destruct (limit_reached max_pages (page_num st0)); [done|].
      injection Hit as <-. cbn. by rewrite Hdata.
    + destruct (3 <=? S (consecutive_empty_pages st0))%nat; [done|].
      injection Hit as <-. cbn. by rewrite app_nil_r.
Qed.

Lemma loop_from_state_after pages max_pages : ∀ n st k,
  state_after py_str n pages max_pages = Some st →
  scrape_loop py_str (n + k) pages max_pages initial_state
  = scrape_loop py_str k pages max_pages st.
Proof.
  induction n as [|n IH]; intros st k.
  - by intros [= <-].
  - cbn [state_after].
    destruct (state_after py_str n pages max_pages) as [st0|]; [|done].
    cbn [mbind option_bind].
    destruct (iteration py_str max_pages st0 (pages (page_num st0)))
      as [st'|] eqn:Hit; [|done].
    intros [= <-].
    replace (S n + k)%nat with (n + S k)%nat by lia.
    rewrite (IH st0 (S k) eq_refl). simpl. by rewrite Hit.
Qed.

Lemma loop_never_repeating pages :
  (∀ n, 1 ≤ n → ∃ r page_data, pages n = Returned (r :: page_data)) →
  (∀ n d d', 1 ≤ n → pages n = Returned d → pages (n + 1) = Returned d' →
     create_page_signature py_str d ≠ create_page_signature py_str d') →
  ∀ fuel st,
    1 ≤ page_num st →
    (last_page_data_signature st = None
     ∨ ∃ d, 1 ≤ page_num st - 1 ∧ pages (page_num st - 1) = Returned d
            ∧ last_page_data_signature st
              = Some (create_page_signature py_str d)) →
    scrape_loop py_str fuel pages None st = None.
Proof.
  intros Hdata Hdiff. induction fuel as [|fuel IH]; intros st Hp Hlast; [done|].
  destruct (Hdata _ Hp) as (r & page_data & Hpage).
  simpl. rewrite Hpage. unfold iteration, next_page.
  cbv beta iota zeta.
  assert (same_as_last (last_page_data_signature st)
            (create_page_signature py_str (r :: page_data)) = false) as ->.
  { destruct Hlast as [->|(d & Hp1 & Hd & ->)]; [done|].
    unfold same_as_last. apply andb_false_iff. right.
    apply String.eqb_neq. intros Heq.
    apply (Hdiff (page_num st - 1) d (r :: page_data) Hp1 Hd).
    - by replace (page_num st - 1 + 1) with (page_num st) by lia.
    - done. }
  cbn [limit_reached page_num]. apply IH; cbn.
  - lia.
  - right. exists (r :: page_data).
    replace (page_num st + 1 - 1) with (page_num st) by lia. by repeat split.
Qed.

End LoopRuns.

(** X14: three pages in a row that yield no record or raise always
    end the crawl: if pages [k], [k+1] and [k+2] are such pages the
    loop returns after at most [k + 2] iterations, whatever the other
    pages hold and whatever the limit, and requests no page past
    [k + 2]. *)
Theorem scrape_loop_stops_on_empty_run (py_str : value → string)
    (pages : Z → Crawl.page_outcome) (max_pages : option Z) (k : Z) :
  1 ≤ k →
  Crawl.fruitless (pages k) → Crawl.fruitless (pages (k + 1)) →
  Crawl.fruitless (pages (k + 2)) →
  ∃ fuel st, (fuel ≤ Z.to_nat k + 2)%nat
    ∧ Crawl.scrape_loop py_str fuel pages max_pages Crawl.initial_state
      = Some st
    ∧ Crawl.page_num st ≤ k + 2.
Proof.
  intros Hk H0 H1 H2.
  destruct (loop_reaches_fruitless py_str pages max_pages k
              (Z.to_nat (k - 1)) Crawl.initial_state)
    as (fuel & st & Hfuel & Hloop & Hpage).
  - intros i Hi.
    assert (i = 0 ∨ i = 1 ∨ i = 2) as [->|[->| ->]] by lia;
      [by rewrite Z.add_0_r|done|done].
  - simpl. lia.
  - simpl. lia.
  - exists fuel, st. split; [lia|]. by split.
Qed.

Lemma scrape_loop_stops_on_empty_run_witness :
  let r : record := {[ "Company_Product_Name" := VStr "Acme 5";
                       "Current_Rate" := VStr "4.25" ]} in
  let pages (n : Z) :=
    if (n =? 1) then Crawl.Returned [r]
    else if (n =? 3) then Crawl.Raised else Crawl.Returned [] in
  1 ≤ 2 ∧ Crawl.fruitless (pages 2) ∧ Crawl.fruitless (pages (2 + 1))
  ∧ Crawl.fruitless (pages (2 + 2))
  ∧ ∃ fuel st, (fuel ≤ Z.to_nat 2 + 2)%nat
      ∧ Crawl.scrape_loop (λ _, "") fuel pages None Crawl.initial_state
        = Some st
      ∧ Crawl.page_num st ≤ 2 + 2.
Proof.
  intros r pages.
  assert (1 ≤ 2) as Hk by lia.
  assert (Crawl.fruitless (pages 2)) as H0 by exact I.
  assert (Crawl.fruitless (pages (2 + 1))) as H1 by exact I.
  assert (Crawl.fruitless (pages (2 + 2))) as H2 by exact I.
  split; [exact Hk|]. split; [exact H0|]. split; [exact H1|].
  split; [exact H2|].
  exact (scrape_loop_stops_on_empty_run (λ _, "") pages None 2 Hk H0 H1 H2).
Defined.

(** X15: without a limit ([max_pages] is [None] or [0]) nothing else
    stops the loop: when every page yields records and no page has the
    signature of the page before it, the loop is still running after
    any number of iterations. *)
Theorem scrape_loop_unbounded (py_str : value → string)
    (pages : Z → Crawl.page_outcome) (max_pages : option Z) :
  max_pages = None ∨ max_pages = Some 0 →
  (∀ n, 1 ≤ n → ∃ r page_data, pages n = Crawl.Returned (r :: page_data)) →
  (∀ n d d', 1 ≤ n →
     pages n = Crawl.Returned d → pages (n + 1) = Crawl.Returned d' →
     Crawl.create_page_signature py_str d
     ≠ Crawl.create_page_signature py_str d') →
  ∀ fuel, Crawl.scrape_all_pages py_str fuel pages max_pages = None.
Proof.
  intros Hmax Hdata Hdiff fuel.
  assert (Crawl.scrape_all_pages py_str fuel pages max_pages
          = Crawl.scrape_all_pages py_str fuel pages None) as ->.
  { destruct Hmax as [->| ->]; [done|].
    unfold Crawl.scrape_all_pages. by rewrite scrape_loop_zero. }
  unfold Crawl.scrape_all_pages.
  rewrite (loop_never_repeating py_str pages Hdata Hdiff); [done|simpl; lia|].
  by left.
Qed.

Lemma scrape_loop_unbounded_witness :
  let r (name : string) : record :=
    {[ "Company_Product_Name" := VStr name; "Current_Rate" := VStr "4.25" ]} in
  let pages (n : Z) :=
    if Z.even n then Crawl.Returned [r "A"] else Crawl.Returned [r "B"] in
  (@None Z = None ∨ None = Some 0)
  ∧ (∀ n, 1 ≤ n → ∃ x page_data, pages n = Crawl.Returned (x :: page_data))
  ∧ ∀ fuel, Crawl.scrape_all_pages (λ _, "") fuel pages None = None.
Proof.
  intros r pages.
  assert (@None Z = None ∨ None = Some 0) as Hmax by (by left).
  assert (∀ n, 1 ≤ n → ∃ x page_data, pages n = Crawl.Returned (x :: page_data))
    as Hdata.
  { intros n _. unfold pages. destruct (Z.even n); by eexists _, _. }
  assert (∀ n d d', 1 ≤ n →
     pages n = Crawl.Returned d → pages (n + 1) = Crawl.Returned d' →
     Crawl.create_page_signature (λ _, "") d
     ≠ Crawl.create_page_signature (λ _, "") d') as Hdiff.
  { intros n d d' _. unfold pages.
    replace (n + 1) with (Z.succ n) by lia. rewrite Z.even_succ.
    rewrite <- Z.negb_even.
    destruct (Z.even n); simpl; intros [= <-] [= <-]; by vm_compute. }
  split; [exact Hmax|]. split; [exact Hdata|].
  exact (scrape_loop_unbounded (λ _, "") pages None Hmax Hdata Hdiff).
Defined.

Section LoopResult.

Import Crawl.

Variable py_str : value → string.

Implicit Types (st : state) (max_pages : option Z)
  (pages : Z → page_outcome).

Lemma loop_break_point pages max_pages : ∀ fuel m st0 st',
  state_after py_str m pages max_pages = Some st0 →
  scrape_loop py_str fuel pages max_pages st0 = Some st' →
  ∃ n st, (m ≤ n < m + fuel)%nat
    ∧ state_after py_str n pages max_pages = Some st
    ∧ iteration py_str max_pages st (pages (page_num st)) = Break st'.
Proof.
  induction fuel as [|fuel IH]; intros m st0 st' Hm; [done|].
  simpl.
  destruct (iteration py_str max_pages st0 (pages (page_num st0)))
    as [st1|st1] eqn:Hit.
  - intros Hloop.
    destruct (IH (S m) st1 st') as (n & st & Hn & Hst & Hbreak).
    + cbn [state_after]. rewrite Hm. cbn [mbind option_bind]. by rewrite Hit.
    + done.
    + exists n, st. split; [lia|]. by split.
  - intros [= <-]. exists m, st0. split; [lia|]. by split.
Qed.

Lemma iteration_break_data pages max_pages n st st' :
  state_after py_str n pages max_pages = Some st →
  iteration py_str max_pages st (pages (page_num st)) = Break st' →
  (repeats py_str n pages ∧ all_data st' = collected n pages)
  ∨ (¬ repeats py_str n pages ∧ all_data st' = collected (S n) pages).
Proof.
  intros Hst Hit.
  destruct (state_after_invariant py_str pages max_pages n st Hst)
    as (Hp & Hc & Hdata & Hlast).
  unfold repeats. cbn [collected].
  replace (Z.of_nat (S n)) with (page_num st) by lia.
  unfold iteration, next_page in Hit.
  destruct (pages (page_num st)) as [[|r page_data]|];
    cbv beta iota zeta in Hit;
    cbn [consecutive_empty_pages page_num all_data
         last_page_data_signature] in Hit.
  - right. split; [by intros (d & [= <-] & Hne & _)|].
    rewrite app_nil_r, <- Hdata.
    destruct (3 <=? S (consecutive_empty_pages st))%nat;
      [by injection Hit as <-|].
    destruct (limit_reached max_pages (page_num st)); [|done].
    by injection Hit as <-.
  - destruct (same_as_last _ _) eqn:Hsame.
    + left. injection Hit as <-. split; [|done].
      exists (r :: page_data). split; [done|]. split; [done|].
      rewrite <- Hlast. unfold same_as_last in Hsame.
      destruct (last_page_data_signature st) as [l|]; [|done].
      apply andb_prop in Hsame as [_ Heq%String.eqb_eq]. by rewrite Heq.
    + right. split.
      * intros (d & [= <-] & Hne & Hsig).
        rewrite Hlast, Hsig, same_as_last_self in Hsame; done.
      * destruct (limit_reached max_pages (page_num st)); [|done].
        injection Hit as <-. cbn. by rewrite Hdata.
  - right. split; [by intros (d & [=] & _)|].
    rewrite app_nil_r, <- Hdata.
    destruct (3 <=? S (consecutive_empty_pages st))%nat; [|done].
    by injection Hit as <-.
Qed.

(** Where a run that returns leaves the loop, and with what. *)
Lemma scrape_all_pages_break pages max_pages fuel result :
  scrape_all_pages py_str fuel pages max_pages = Some result →
  ∃ n st', (n < fuel)%nat
    ∧ is_Some (state_after py_str n pages max_pages)
    ∧ state_after py_str (S n) pages max_pages = None
    ∧ scrape_loop py_str fuel pages max_pages initial_state = Some st'
    ∧ page_num st' = Z.of_nat n + 1
    ∧ ((repeats py_str n pages
        ∧ result = Dedup.remove_duplicates (collected n pages))
       ∨ (¬ repeats py_str n pages
          ∧ result = Dedup.remove_duplicates (collected (S n) pages))).
Proof.
  unfold scrape_all_pages.
  destruct (scrape_loop py_str fuel pages max_pages initial_state)
    as [st'|] eqn:Hloop; [|done].
  intros [= <-].
  destruct (loop_break_point pages max_pages fuel 0 initial_state st'
              eq_refl Hloop) as (n & st & Hn & Hst & Hbreak).
  destruct (state_after_invariant py_str pages max_pages n st Hst)
    as (Hp & _).
  exists n, st'. split; [lia|]. split; [by eexists|]. split.
  { cbn [state_after]. rewrite Hst. cbn [mbind option_bind].
    by rewrite Hbreak. }
  split; [done|]. split.
  { rewrite (iteration_break_page _ _ _ _ _ Hbreak). lia. }
  destruct (iteration_break_data pages max_pages n st st' Hst Hbreak)
    as [[Hrep ->]|[Hrep ->]]; [by left|by right].
Qed.

End LoopResult.

(** X16: what [scrape_all_pages] returns.  Let page [n + 1] be the
    last page requested: the loop reaches it, leaves during it, and
    ends with [page_num = n + 1].  When that page yields records with
    the signature of the most recent page that yielded records, the
    result is the de-duplicated list of the records of pages [1] to
    [n] in page order; in every other case it is the de-duplicated
    list of the records of pages [1] to [n + 1]. *)
Theorem scrape_all_pages_result (py_str : value → string) (fuel : nat)
    (pages : Z → Crawl.page_outcome) (max_pages : option Z)
    (result : list record) :
  Crawl.scrape_all_pages py_str fuel pages max_pages = Some result →
  ∃ n st', (n < fuel)%nat
    ∧ is_Some (Crawl.state_after py_str n pages max_pages)
    ∧ Crawl.state_after py_str (S n) pages max_pages = None
    ∧ Crawl.scrape_loop py_str fuel pages max_pages Crawl.initial_state
      = Some st'
    ∧ Crawl.page_num st' = Z.of_nat n + 1
    ∧ ((Crawl.repeats py_str n pages
        ∧ result = Dedup.remove_duplicates (Crawl.collected n pages))
       ∨ (¬ Crawl.repeats py_str n pages
          ∧ result = Dedup.remove_duplicates (Crawl.collected (S n) pages))).
Proof. apply scrape_all_pages_break. Qed.

Lemma scrape_all_pages_result_witness :
  let r : record := {[ "Company_Product_Name" := VStr "Acme 5";
                       "Current_Rate" := VStr "4.25" ]} in
  let q : record := {[ "Company_Product_Name" := VStr "Beta 3";
                       "Current_Rate" := VStr "5.00" ]} in
  let pages (n : Z) := if (n =? 1) then Crawl.Returned [r]
                       else Crawl.Returned [q] in
  Crawl.scrape_all_pages (λ _, "") 5 pages None = Some [r; q]
  ∧ ∃ n st', (n < 5)%nat
      ∧ is_Some (Crawl.state_after (λ _, "") n pages None)
      ∧ Crawl.state_after (λ _, "") (S n) pages None = None
      ∧ Crawl.scrape_loop (λ _, "") 5 pages None Crawl.initial_state
        = Some st'
      ∧ Crawl.page_num st' = Z.of_nat n + 1
      ∧ ((Crawl.repeats (λ _, "") n pages
          ∧ [r; q] = Dedup.remove_duplicates (Crawl.collected n pages))
         ∨ (¬ Crawl.repeats (λ _, "") n pages
            ∧ [r; q]
              = Dedup.remove_duplicates (Crawl.collected (S n) pages))).
Proof.
  intros r q pages.
  assert (Crawl.scrape_all_pages (λ _, "") 5 pages None = Some [r; q])
    as Hrun by (by vm_compute).
  split; [exact Hrun|].
  exact (scrape_all_pages_result (λ _, "") 5 pages None [r; q] Hrun).
Defined.

(** X17: a page that repeats the signature of the most recent page
    with records ends the crawl and is not part of the result: if the
    loop reaches page [n + 1] and that page yields records with that
    signature, the result is the de-duplicated list of the records of
    pages [1] to [n], however many iterations are allowed. *)
Theorem scrape_all_pages_stops_on_repeat (py_str : value → string)
    (pages : Z → Crawl.page_outcome) (max_pages : option Z)
    (n extra : nat) (st : Crawl.state) (page_data : list record) :
  Crawl.state_after py_str n pages max_pages = Some st →
  pages (Z.of_nat (S n)) = Crawl.Returned page_data → page_data ≠ [] →
  Crawl.most_recent_signature py_str n pages
  = Some (Crawl.create_page_signature py_str page_data) →
  Crawl.scrape_all_pages py_str (S n + extra) pages max_pages
  = Some (Dedup.remove_duplicates (Crawl.collected n pages)).
Proof.
  intros Hst Hpage Hne Hsig.
  destruct (state_after_invariant py_str pages max_pages n st Hst)
    as (Hp & Hc & Hdata & Hlast).
  unfold Crawl.scrape_all_pages.
  replace (S n + extra)%nat with (n + S extra)%nat by lia.
  rewrite (loop_from_state_after py_str pages max_pages n st (S extra) Hst).
  cbn [Crawl.scrape_loop].
  replace (Crawl.page_num st) with (Z.of_nat (S n)) by lia.
  rewrite Hpage. unfold Crawl.iteration.
  destruct page_data as [|r page_data]; [done|].
  cbv beta iota zeta. rewrite Hlast, Hsig.
  rewrite (same_as_last_self py_str (r :: page_data) Hne).
  cbn [mbind option_bind]. by rewrite Hdata.
Qed.

Lemma scrape_all_pages_stops_on_repeat_witness :
  let r : record := {[ "Company_Product_Name" := VStr "Acme 5";
                       "Current_Rate" := VStr "4.25" ]} in
  let q : record := {[ "Company_Product_Name" := VStr "Acme 5";
                       "Current_Rate" := VStr "4.25";
                       "Years" := VStr "5" ]} in
  let pages (n : Z) := if (n =? 1) then Crawl.Returned [r]
                       else Crawl.Returned [q] in
  Crawl.scrape_all_pages (λ _, "") (1 + 3) pages None
  = Some (Dedup.remove_duplicates (Crawl.collected 1 pages)).
Proof.
  intros r q pages.
  refine (scrape_all_pages_stops_on_repeat (λ _, "") pages None 1 3
            _ [q] _ _ _ _).
  - reflexivity.
  - reflexivity.
  - discriminate.
  - by vm_compute.
Defined.

Section Pipeline.

Import Extract Crawl.

Variable py_str : value → string.

Lemma extract_table_data_product page_num source_url tables :
  Forall product_record (extract_table_data page_num source_url tables).
Proof.
  destruct (select_main_table tables) as [[|header_row data_rows]|] eqn:Hsel.
  - unfold extract_table_data. rewrite Hsel. constructor.
  - destruct (extract_table_data_eq page_num source_url tables header_row
                data_rows Hsel) as [_ ->].
    apply Forall_fmap, Forall_forall. intros r Hr%list_elem_of_filter.
    destruct Hr as [_ Hr]. split.
    + apply map_row_keys.
    + apply map_row_values.
      pose proof (raw_rows_typed page_num source_url
                    (extract_headers header_row []) 0 data_rows) as Hty.
      rewrite Forall_forall in Hty. by apply Hty.
  - unfold extract_table_data. rewrite Hsel. constructor.
Qed.

Lemma collected_Forall (P : record → Prop) pages n :
  (∀ k page_data, pages k = Returned page_data → Forall P page_data) →
  Forall P (collected n pages).
Proof.
  intros Hpages. induction n as [|n IH]; [constructor|].
  cbn [collected]. apply Forall_app. split; [exact IH|].
  destruct (pages (Z.of_nat (S n))) eqn:Hp; [by eapply Hpages|constructor].
Qed.

End Pipeline.

(** X19: a crawl whose pages come from [scrape_page] returns product
    records only: every record of the result has its keys among the
    thirteen mapped names and text for every value, so no
    [page_number], [row_index], [source_url], [Column_N] or [_links]
    entry reaches the output files or the database. *)
Theorem crawl_returns_product_records (py_str : value → string)
    (fuel : nat) (site : Z → option (string * list Extract.table))
    (max_pages : option Z) (result : list record) :
  Crawl.scrape_all_pages py_str fuel
    (λ n, Crawl.Returned (Extract.scrape_page n (site n))) max_pages
  = Some result →
  Forall Extract.product_record result.
Proof.
  intros Hrun.
  assert (∀ n, Forall Extract.product_record
                 (Crawl.collected n
                    (λ n, Crawl.Returned (Extract.scrape_page n (site n)))))
    as Hall.
  { intros n. apply collected_Forall. intros k page_data [= <-].
    unfold Extract.scrape_page. destruct (site k) as [[url tables]|].
    - apply extract_table_data_product.
    - constructor. }
  assert (∀ l, Forall Extract.product_record l →
               Forall Extract.product_record (Dedup.remove_duplicates l))
    as Hdedup.
  { intros l Hl. rewrite Forall_forall in Hl |- *. intros r Hr.
    apply Hl. eapply elem_of_sublist; [exact Hr|].
    rewrite remove_duplicates_keep_new. apply keep_new_sublist. }
  destruct (scrape_all_pages_break py_str _ max_pages fuel result Hrun)
    as (n & st' & _ & _ & _ & _ & _ & [[_ ->]|[_ ->]]); apply Hdedup, Hall.
Qed.

Lemma crawl_returns_product_records_witness :
  let blank := Extract.Cell "" [] in
  let text s := Extract.Cell s [] in
  let page : list Extract.table :=
    [ [ replicate 14 blank;
        [blank; text "Acme MYGA 3"; text "A+"; text "85"; text "10,000";
         text "3"; text "10%"; text "1/1"; text "0"; text "4.25"] ] ] in
  let site (n : Z) := if (n =? 1) then Some ("u", page) else None in
  ∃ result,
    Crawl.scrape_all_pages (λ _, "") 4
      (λ n, Crawl.Returned (Extract.scrape_page n (site n))) None
    = Some result
    ∧ length result = 1%nat
    ∧ Forall Extract.product_record result.
Proof.
  intros blank text page site.
  destruct (Crawl.scrape_all_pages (λ _, "") 4
              (λ n, Crawl.Returned (Extract.scrape_page n (site n))) None)
    as [result|] eqn:Hrun.
  - exists result. split; [reflexivity|]. split.
    + revert Hrun. vm_compute. by intros [= <-].
    + exact (crawl_returns_product_records (λ _, "") 4 site None result Hrun).
  - exfalso. revert Hrun. by vm_compute.
Defined.

(** ** CSV header *)

Section CsvFacts.

Import Csv.

Implicit Types (data : list record) (cols : gset string).

Lemma collect_columns_from data : ∀ (acc : gset string) c,
  c ∈ foldl (λ all_columns (r : record), all_columns ∪ dom r) acc data
  ↔ c ∈ acc ∨ ∃ r, r ∈ data ∧ is_Some (r !! c).
Proof.
  induction data as [|r rest IH]; intros acc c; simpl.
  - split; [by left|]. intros [?|(r & ?%not_elem_of_nil & _)]; done.
  - rewrite IH, elem_of_union, elem_of_dom. split.
    + intros [[?|?]|(r' & Hin & Hc)].
      * by left.
      * right. exists r. split; [by left|done].
      * right. exists r'. split; [by right|done].
    + intros [?|(r' & [->|Hin]%elem_of_cons & Hc)].
      * left. by left.
      * left. by right.
      * right. by exists r'.
Qed.

Lemma elem_of_collect_columns data c :
  c ∈ collect_columns data ↔ ∃ r, r ∈ data ∧ is_Some (r !! c).
Proof.
  unfold collect_columns. rewrite collect_columns_from. split.
  - by intros [?%not_elem_of_empty|?].
  - by right.
Qed.

Lemma filter_elem_ext (P Q : string → Prop)
    `{!∀ x, Decision (P x)} `{!∀ x, Decision (Q x)} (l : list string) :
  (∀ x, x ∈ l → P x ↔ Q x) → filter P l = filter Q l.
Proof.
  induction l as [|x l IH]; intros Hext; [done|].
  rewrite !filter_cons.
  assert (filter P l = filter Q l) as ->.
  { apply IH. intros y Hy. apply Hext. by right. }
  destruct (decide (P x)) as [HP|HP], (decide (Q x)) as [HQ|HQ]; try done;
    exfalso; [apply HQ|apply HP]; by apply (Hext x); [left|].
Qed.

Lemma take_preferred_spec preferred : ∀ columns cols,
  NoDup preferred →
  take_preferred preferred columns cols
  = (columns ++ filter (λ c, c ∈ cols) preferred,
     cols ∖ list_to_set preferred).
Proof.
  induction preferred as [|col rest IH]; intros columns cols Hnd.
  - simpl. rewrite app_nil_r. f_equal. set_solver.
  - apply NoDup_cons in Hnd as [Hnotin Hnd].
    cbn [take_preferred]. rewrite filter_cons.
    destruct (decide (col ∈ cols)) as [Hin|Hnin].
    + rewrite IH by done. rewrite <- app_assoc. simpl. f_equal.
      * do 2 f_equal. apply filter_elem_ext. intros x Hx.
        rewrite elem_of_difference, elem_of_singleton.
        split; [by intros [? _]|]. intros ?. split; [done|]. by intros ->.
      * set_solver.
    + rewrite IH by done. f_equal. set_solver.
Qed.

Lemma preferred_order_NoDup : NoDup preferred_order.
Proof. apply (bool_decide_unpack _). by vm_compute. Qed.

Lemma csv_columns_split data :
  csv_columns data
  = filter (λ c, c ∈ collect_columns data) preferred_order
    ++ Py.sorted (elements (collect_columns data ∖ list_to_set preferred_order)).
Proof.
  unfold csv_columns.
  by rewrite (take_preferred_spec _ _ _ preferred_order_NoDup).
Qed.

Lemma sorted_elements (cols : gset string) :
  Sorted String.le (Py.sorted (elements cols))
  ∧ NoDup (Py.sorted (elements cols))
  ∧ ∀ c, c ∈ Py.sorted (elements cols) ↔ c ∈ cols.
Proof.
  unfold Py.sorted. split; [|split].
  - apply Sorted_merge_sort. apply _.
  - rewrite merge_sort_Permutation. apply NoDup_elements.
  - intros c. by rewrite merge_sort_Permutation, elem_of_elements.
Qed.

End CsvFacts.

Lemma occurs_collect_columns (data : list record) (c : string) :
  Csv.occurs data c ↔ c ∈ Csv.collect_columns data.
Proof.
  unfold Csv.occurs. by rewrite Exists_exists, elem_of_collect_columns.
Qed.

(** X20: the header row of the CSV file.  First the columns of the
    preferred list that occur as a key of some record, in the order of
    that list; then every other key occurring in the data, in
    ascending order, each once. *)
Theorem save_to_csv_header_order (data : list record) :
  data ≠ [] →
  ∃ others,
    Csv.save_to_csv_header data
    = Some (filter (Csv.occurs data) Csv.preferred_order ++ others)
    ∧ Sorted String.le others
    ∧ NoDup others
    ∧ ∀ c, c ∈ others ↔ Csv.occurs data c ∧ c ∉ Csv.preferred_order.
Proof.
  intros Hne.
  exists (Py.sorted (elements (Csv.collect_columns data
                               ∖ list_to_set Csv.preferred_order))).
  destruct (sorted_elements (Csv.collect_columns data
                             ∖ list_to_set Csv.preferred_order))
    as (Hsorted & Hnodup & Hin).
  split; [|split; [done|split; [done|]]].
  - unfold Csv.save_to_csv_header. destruct data as [|r rest]; [done|].
    rewrite csv_columns_split. do 2 f_equal.
    apply filter_elem_ext. intros c _. symmetry.
    apply occurs_collect_columns.
  - intros c. rewrite Hin, elem_of_difference, elem_of_list_to_set.
    by rewrite occurs_collect_columns.
Qed.

Lemma save_to_csv_header_order_witness :
  let r : record := {[ "Commission" := VStr "2.0"; "Years" := VStr "5";
                       "AM_Best" := VStr "A+" ]} in
  [r] ≠ []
  ∧ ∃ others,
      Csv.save_to_csv_header [r]
      = Some (filter (Csv.occurs [r]) Csv.preferred_order ++ others)
      ∧ Sorted String.le others
      ∧ NoDup others
      ∧ ∀ c, c ∈ others ↔ Csv.occurs [r] c ∧ c ∉ Csv.preferred_order.
Proof.
  intros r. assert ([r] ≠ []) as Hne by discriminate.
  split; [exact Hne|]. exact (save_to_csv_header_order [r] Hne).
Defined.

(** X21: the header row names every key of every record exactly once:
    a column is in the header if and only if some record has it, and
    no column is listed twice.  So no record has a field the writer
    does not know. *)
Theorem save_to_csv_header_complete (data : list record)
    (header : list string) :
  Csv.save_to_csv_header data = Some header →
  NoDup header ∧ ∀ c, c ∈ header ↔ ∃ r, r ∈ data ∧ is_Some (r !! c).
Proof.
  unfold Csv.save_to_csv_header. destruct data as [|r0 rest]; [done|].
  intros [= <-]. rewrite csv_columns_split.
  set (data := r0 :: rest).
  destruct (sorted_elements (Csv.collect_columns data
                             ∖ list_to_set Csv.preferred_order))
    as (_ & Hnodup & Hin).
  split.
  - apply NoDup_app. split; [|split; [|done]].
    + apply NoDup_filter, preferred_order_NoDup.
    + intros c [_ Hc]%list_elem_of_filter.
      rewrite Hin, elem_of_difference, elem_of_list_to_set. tauto.
  - intros c. rewrite elem_of_app, list_elem_of_filter, Hin.
    rewrite elem_of_difference, elem_of_list_to_set.
    rewrite <- elem_of_collect_columns.
    destruct (decide (c ∈ Csv.preferred_order)); tauto.
Qed.

Lemma save_to_csv_header_complete_witness :
  let r : record := {[ "Commission" := VStr "2.0"; "Years" := VStr "5" ]} in
  Csv.save_to_csv_header [r] = Some ["Commission"; "Years"]
  ∧ NoDup ["Commission"; "Years"].
Proof.
  intros r.
  assert (Csv.save_to_csv_header [r] = Some ["Commission"; "Years"]) as Hrun
    by (by vm_compute).
  split; [exact Hrun|].
  exact (proj1 (save_to_csv_header_complete [r] _ Hrun)).
Defined.

(** X22: the header written for complete product records.  When the
    keys of the data are the thirteen mapped names, ten of them are in
    the preferred list and come first in its order;
    [Company_Product_Name], [GTD_Yield_Rate] and [Years] are not (the
    list names them [Carrier_Product_Name], [GTD_Yield_Surrender] and
    [Years_Rate_GTD]) and come last, in ascending order. *)
Theorem save_to_csv_header_products (data : list record) :
  data ≠ [] →
  Csv.collect_columns data = list_to_set Extract.mapped_names →
  Csv.save_to_csv_header data
  = Some [ "AM_Best"; "Max_Issue_Age"; "Min_Premium"; "SC_Years";
           "Free_Withdrawal_Yr1_Yr2"; "Last_Change"; "Premium_Bonus";
           "Current_Rate"; "Base_Rate"; "Commission";
           "Company_Product_Name"; "GTD_Yield_Rate"; "Years" ].
Proof.
  intros Hne Hcols. unfold Csv.save_to_csv_header.
  destruct data as [|r rest]; [done|].
  unfold Csv.csv_columns. rewrite Hcols. by vm_compute.
Qed.

Lemma save_to_csv_header_products_witness :
  let r : record :=
    Extract.map_row Extract.column_mapping
      (list_to_map ((λ p : string * string, (p.1, VStr "x"))
                    <$> Extract.column_mapping)) ∅ in
  [r] ≠ []
  ∧ Csv.collect_columns [r] = list_to_set Extract.mapped_names
  ∧ head <$> Csv.save_to_csv_header [r] = Some (Some "AM_Best").
Proof.
  intros r. assert ([r] ≠ []) as Hne by discriminate.
  assert (Csv.collect_columns [r] = list_to_set Extract.mapped_names) as Hc
    by (by vm_compute).
  split; [exact Hne|]. split; [exact Hc|].
  by rewrite (save_to_csv_header_products [r] Hne Hc).
Defined.
